(** * ROI visualizer: the financial projection engine and its validators

    A shallow embedding of [src/models/security.ts], [rental.ts],
    [precious-metal.ts], [fixed-income.ts] and [validation.ts], followed by
    the properties of the specification that concern them.

    Numbers.  A JavaScript [number] is modelled by [num]: a finite value, kept
    as an exact canonical rational, or one of the three special values
    [+Infinity], [-Infinity], [NaN].  The special values follow the
    ECMAScript rules (division by zero, [Infinity - Infinity], comparisons
    with [NaN], [Math.min], [Math.pow] ...).  Two things are idealised and
    stated here once: finite results are exact (no rounding, no overflow),
    and zero is unsigned (a zero divisor counts as [+0]).

    The statements are chosen with the first of these in mind: a value is
    given through the operations the code performs on it, in the code's
    order, or values are compared in a way that rounding keeps (with
    [lt _ _ = false] where a [NaN] may stand on either side); that a
    computed value is finite is not asserted anywhere. *)

From Stdlib Require Import ZArith QArith Qcanon Qround Qabs Lqa.
From Stdlib Require Import String Bool Lia List.
From Stdlib Require Import DecimalString DecimalNat.
Import ListNotations.

Set Implicit Arguments.

(* ================================================================== *)
(** ** JavaScript numbers                                              *)
(* ================================================================== *)

Inductive num : Type :=
| Fin (q : Qc)
| PInf
| NInf
| NaN.

Declare Scope num_scope.
Delimit Scope num_scope with num.
Bind Scope num_scope with num.

(** Literals: [lit n d] is the decimal or fraction [n/d], [of_Z], [of_nat]
    the integers. *)
Definition lit (n : Z) (d : positive) : num := Fin (Q2Qc (n # d)).
Definition of_Z (z : Z) : num := Fin (Q2Qc (inject_Z z)).
Definition of_nat (n : nat) : num := of_Z (Z.of_nat n).

Definition Qc_ltb (x y : Qc) : bool :=
  match (x ?= y)%Qc with Lt => true | _ => false end.
Definition Qc_leb (x y : Qc) : bool :=
  match (x ?= y)%Qc with Gt => false | _ => true end.
Definition Qc_eqb (x y : Qc) : bool :=
  match (x ?= y)%Qc with Eq => true | _ => false end.

(** Sign of a finite value, and the infinity of a given sign ([Eq], the sign
    of zero, gives [NaN]: it is the result of [0 * Infinity] and [0 / 0]). *)
Definition sgn (q : Qc) : comparison := (q ?= 0)%Qc.
Definition inf_of (c : comparison) : num :=
  match c with Gt => PInf | Lt => NInf | Eq => NaN end.

Definition is_finite (x : num) : bool :=
  match x with Fin _ => true | _ => false end.

Definition neg (x : num) : num :=
  match x with
  | Fin q => Fin (- q)
  | PInf => NInf
  | NInf => PInf
  | NaN => NaN
  end.

Definition add (x y : num) : num :=
  match x, y with
  | NaN, _ | _, NaN => NaN
  | Fin a, Fin b => Fin (a + b)
  | PInf, NInf | NInf, PInf => NaN
  | PInf, _ | _, PInf => PInf
  | NInf, _ | _, NInf => NInf
  end.

Definition sub (x y : num) : num := add x (neg y).

Definition mul (x y : num) : num :=
  match x, y with
  | NaN, _ | _, NaN => NaN
  | Fin a, Fin b => Fin (a * b)
  | Fin a, PInf | PInf, Fin a => inf_of (sgn a)
  | Fin a, NInf | NInf, Fin a => inf_of (CompOpp (sgn a))
  | PInf, PInf | NInf, NInf => PInf
  | PInf, NInf | NInf, PInf => NInf
  end.

Definition div (x y : num) : num :=
  match x, y with
  | NaN, _ | _, NaN => NaN
  | Fin a, Fin b => if Qc_eqb b 0 then inf_of (sgn a) else Fin (a / b)
  | Fin _, PInf | Fin _, NInf => Fin 0
  | PInf, Fin b => if Qc_ltb b 0 then NInf else PInf
  | NInf, Fin b => if Qc_ltb b 0 then PInf else NInf
  | _, _ => NaN
  end.

Infix "+" := add : num_scope.
Infix "-" := sub : num_scope.
Infix "*" := mul : num_scope.
Infix "/" := div : num_scope.

(** The relational operators [<], [<=], [>] and strict equality [===]: every
    comparison with [NaN] is false. *)
Definition lt (x y : num) : bool :=
  match x, y with
  | NaN, _ | _, NaN => false
  | Fin a, Fin b => Qc_ltb a b
  | NInf, NInf => false
  | NInf, _ => true
  | PInf, _ => false
  | Fin _, PInf => true
  | Fin _, NInf => false
  end.

Definition le (x y : num) : bool :=
  match x, y with
  | NaN, _ | _, NaN => false
  | Fin a, Fin b => Qc_leb a b
  | NInf, _ => true
  | PInf, PInf => true
  | PInf, _ => false
  | Fin _, PInf => true
  | Fin _, NInf => false
  end.

Definition gt (x y : num) : bool := lt y x.

Definition strict_eq (x y : num) : bool :=
  match x, y with
  | Fin a, Fin b => Qc_eqb a b
  | PInf, PInf | NInf, NInf => true
  | _, _ => false
  end.

(** [Math.min] and [Math.max]: [NaN] if either argument is. *)
Definition Math_min (x y : num) : num :=
  match x, y with
  | NaN, _ | _, NaN => NaN
  | _, _ => if lt y x then y else x
  end.

Definition Math_max (x y : num) : num :=
  match x, y with
  | NaN, _ | _, NaN => NaN
  | _, _ => if lt x y then y else x
  end.

Definition Math_floor (x : num) : num :=
  match x with
  | Fin q => of_Z (Qfloor q)
  | _ => x
  end.

(** [Number.isInteger]: finite and integral.  A canonical rational is
    integral exactly when its denominator is 1. *)
Definition Number_isInteger (x : num) : bool :=
  match x with
  | Fin q => Pos.eqb (Qden q) 1
  | _ => false
  end.

(** Truncation toward zero, for the remainder operator. *)
Definition Qc_trunc (q : Qc) : Z :=
  if Qc_ltb q 0 then Qceiling q else Qfloor q.

(** The remainder operator [%]: the result takes the sign of the dividend;
    [NaN] for an infinite dividend or a zero divisor; the dividend itself
    for an infinite divisor. *)
Definition rem (x y : num) : num :=
  match x, y with
  | NaN, _ | _, NaN => NaN
  | PInf, _ | NInf, _ => NaN
  | Fin a, Fin b =>
      if Qc_eqb b 0 then NaN
      else Fin (a - b * Q2Qc (inject_Z (Qc_trunc (a / b))))
  | Fin a, _ => Fin a
  end.

(** [Math.pow] at a non-integral exponent of a positive base other than 1 is
    the one operation that has no exact rational value.  It is left to the
    platform: [pow_frac] is whatever the engine returns there, and every
    statement below holds for all choices of it. *)
Class PowOracle : Type := pow_frac : Qc -> Qc -> num.

(** Integral powers of a non-zero rational. *)
Definition pow_int (b : Qc) (n : Z) : Qc :=
  if (n <? 0)%Z then (/ (b ^ Z.to_nat (- n)))%Qc else (b ^ Z.to_nat n)%Qc.

Definition Qc_abs (q : Qc) : Qc := if Qc_ltb q 0 then (- q)%Qc else q.

(** [Math.pow], after ECMAScript's Number::exponentiate. *)
Definition Math_pow {o : PowOracle} (base exponent : num) : num :=
  match exponent with
  | NaN => NaN
  | Fin e =>
      if Qc_eqb e 0 then Fin 1
      else
        match base with
        | NaN => NaN
        | PInf => if Qc_ltb 0 e then PInf else Fin 0
        | NInf =>
            if Qc_ltb 0 e
            then if Number_isInteger (Fin e) && Z.odd (Qnum e) then NInf else PInf
            else Fin 0
        | Fin b =>
            if Qc_eqb b 0 then (if Qc_ltb 0 e then Fin 0 else PInf)
            else if Number_isInteger (Fin e) then Fin (pow_int b (Qnum e))
            else if Qc_ltb b 0 then NaN
            else if Qc_eqb b 1 then Fin 1
            else pow_frac b e
        end
  | PInf =>
      match base with
      | NaN => NaN
      | Fin b =>
          match (Qc_abs b ?= 1)%Qc with
          | Gt => PInf | Eq => NaN | Lt => Fin 0
          end
      | _ => PInf
      end
  | NInf =>
      match base with
      | NaN => NaN
      | Fin b =>
          match (Qc_abs b ?= 1)%Qc with
          | Gt => Fin 0 | Eq => NaN | Lt => PInf
          end
      | _ => Fin 0
      end
  end.

(** A property that may be absent from an object: reading it gives
    [undefined], which every arithmetic or relational operator turns into
    [NaN] ([ToNumber]). *)
Definition ToNumber (v : option num) : num :=
  match v with Some x => x | None => NaN end.

(** Decidable equality of [num], for evaluating the model on concrete
    inputs. *)
Definition num_eqb (x y : num) : bool :=
  match x, y with
  | Fin a, Fin b => Qc_eqb a b
  | PInf, PInf | NInf, NInf | NaN, NaN => true
  | _, _ => false
  end.

Fixpoint nums_eqb (xs ys : list num) : bool :=
  match xs, ys with
  | [], [] => true
  | x :: xs', y :: ys' => num_eqb x y && nums_eqb xs' ys'
  | _, _ => false
  end.

(* ================================================================== *)
(** ** The yearly loop                                                 *)
(* ================================================================== *)

(** [for (let year = 1; year <= years; year++) body]: the body is run for
    [year = 1, 2, ..., years] on the loop-carried state.  The horizon is a
    number of years, a [nat]. *)
Fixpoint for_years {S : Type} (body : nat -> S -> S)
         (count : nat) (year : nat) (s : S) : S :=
  match count with
  | O => s
  | Datatypes.S k => for_years body k (Datatypes.S year) (body year s)
  end.

Definition for_loop {S : Type} (body : nat -> S -> S) (years : nat) (s : S) : S :=
  for_years body years 1 s.

Notation "0" := (Fin 0%Qc) : num_scope.
Notation "1" := (Fin 1%Qc) : num_scope.

Local Open Scope string_scope.
Local Open Scope list_scope.
Local Open Scope num_scope.

(* ================================================================== *)
(** ** Securities ([security.ts])                                      *)
(* ================================================================== *)

Module Security.

Record SecurityParams : Type := {
  name : string;
  initialInvestment : num;
  annualReturn : num;
  timeHorizon : num;
  expenseRatio : num;
  oneTimeFee : num;
  dividendYield : num;
  reinvestDividends : bool
}.

(** The variables the loop carries from one year to the next. *)
Record state : Type := {
  compoundedValue : num;
  accumulatedDividends : num;
  values : list num
}.

Definition startingValue (params : SecurityParams) : num :=
  initialInvestment params - oneTimeFee params.

Definition netGrowthRate (params : SecurityParams) : num :=
  if reinvestDividends params
  then annualReturn params - expenseRatio params + dividendYield params
  else annualReturn params - expenseRatio params.

Definition year_body (params : SecurityParams) (year : nat) (st : state) : state :=
  let compoundedValue := compoundedValue st * (1 + netGrowthRate params) in
  let accumulatedDividends :=
    if negb (reinvestDividends params)
    then accumulatedDividends st
         + (compoundedValue / (1 + netGrowthRate params)) * dividendYield params
    else accumulatedDividends st in
  {| compoundedValue := compoundedValue;
     accumulatedDividends := accumulatedDividends;
     values := values st ++ [compoundedValue + accumulatedDividends] |}.

Definition initial_state (params : SecurityParams) : state :=
  {| compoundedValue := startingValue params;
     accumulatedDividends := 0;
     values := [startingValue params] |}.

Definition run (params : SecurityParams) (years : nat) : state :=
  for_loop (year_body params) years (initial_state params).

Definition computeSecurityValues (params : SecurityParams) (years : nat) : list num :=
  values (run params years).

End Security.

(* ================================================================== *)
(** ** Rental property ([rental.ts])                                   *)
(* ================================================================== *)

Module Rental.

(** The object the rental functions receive.  The projection reads the
    value-relative fields [monthlyRentalPercent] and
    [annualInsuranceCostPercent]; the validator reads the fixed-amount
    fields [monthlyRentalIncome] and [insuranceCost] of the other variant of
    the record.  An object of one variant lacks the fields of the other, so
    these four are properties that may be absent. *)
Record RentalPropertyParams : Type := {
  name : string;
  purchasePrice : num;
  downPayment : num;
  mortgageRate : num;
  mortgageDuration : num;
  monthlyRentalPercent : option num;
  annualAppreciation : num;
  timeHorizon : num;
  maintenanceCostPercent : num;
  annualInsuranceCostPercent : option num;
  propertyTaxRate : num;
  vacancyRate : num;
  sellingCostPercent : num;
  monthlyRentalIncome : option num;
  insuranceCost : option num
}.

Record state : Type := {
  propertyValue : num;
  remainingMortgage : num;
  cumulativeCashFlow : num;
  values : list num
}.

Definition mortgageAmount (params : RentalPropertyParams) : num :=
  purchasePrice params - downPayment params.

Definition annualMortgagePayment {o : PowOracle} (params : RentalPropertyParams) : num :=
  if le (mortgageAmount params) 0 then 0
  else if strict_eq (mortgageRate params) 0 then
    (mortgageAmount params / (mortgageDuration params * of_Z 12)) * of_Z 12
  else
    let monthlyRate := mortgageRate params / of_Z 12 in
    let totalMonths := mortgageDuration params * of_Z 12 in
    let factor := Math_pow (1 + monthlyRate) totalMonths in
    let monthlyPayment :=
      mortgageAmount params * (monthlyRate * factor) / (factor - 1) in
    monthlyPayment * of_Z 12.

(** The guard of the mortgage block of the loop. *)
Definition pays_mortgage (params : RentalPropertyParams) (year : nat) : bool :=
  le (of_nat year) (mortgageDuration params) && gt (mortgageAmount params) 0.

Definition year_body {o : PowOracle} (params : RentalPropertyParams)
           (year : nat) (st : state) : state :=
  let propertyValue := propertyValue st * (1 + annualAppreciation params) in
  let '(mortgagePaymentThisYear, remainingMortgage) :=
    if pays_mortgage params year then
      let interestThisYear := remainingMortgage st * mortgageRate params in
      let principalThisYear :=
        Math_min (annualMortgagePayment params - interestThisYear)
                 (remainingMortgage st) in
      (annualMortgagePayment params,
       Math_max (remainingMortgage st - principalThisYear) 0)
    else (0, remainingMortgage st) in
  let maintenance := propertyValue * maintenanceCostPercent params in
  let propertyTax := propertyValue * propertyTaxRate params in
  let insurance := propertyValue * ToNumber (annualInsuranceCostPercent params) in
  let totalExpenses := maintenance + insurance + propertyTax in
  let effectiveRentalIncome :=
    propertyValue * ToNumber (monthlyRentalPercent params) * of_Z 12
    * (1 - vacancyRate params) in
  let netCashFlow := effectiveRentalIncome - mortgagePaymentThisYear - totalExpenses in
  let cumulativeCashFlow := cumulativeCashFlow st + netCashFlow in
  let sellingCosts := propertyValue * sellingCostPercent params in
  let equity := propertyValue - remainingMortgage - sellingCosts in
  {| propertyValue := propertyValue;
     remainingMortgage := remainingMortgage;
     cumulativeCashFlow := cumulativeCashFlow;
     values := values st ++ [equity + cumulativeCashFlow] |}.

Definition initial_state (params : RentalPropertyParams) : state :=
  {| propertyValue := purchasePrice params;
     remainingMortgage := mortgageAmount params;
     cumulativeCashFlow := 0;
     values := [downPayment params] |}.

Definition run {o : PowOracle} (params : RentalPropertyParams) (years : nat) : state :=
  for_loop (year_body params) years (initial_state params).

Definition computeRentalValues {o : PowOracle} (params : RentalPropertyParams)
           (years : nat) : list num :=
  values (run params years).

End Rental.

(* ================================================================== *)
(** ** Precious metal ([precious-metal.ts])                            *)
(* ================================================================== *)

Module PreciousMetal.

Record PreciousMetalParams : Type := {
  name : string;
  initialInvestment : num;
  annualPriceIncrease : num;
  timeHorizon : num;
  transactionFeePercent : num
}.

Definition year_body {o : PowOracle} (params : PreciousMetalParams)
           (year : nat) (values : list num) : list num :=
  let grossValue :=
    initialInvestment params * Math_pow (1 + annualPriceIncrease params) (of_nat year) in
  let netValue := grossValue * (1 - transactionFeePercent params) in
  values ++ [netValue].

Definition computePreciousMetalValues {o : PowOracle} (params : PreciousMetalParams)
           (years : nat) : list num :=
  for_loop (year_body params) years [initialInvestment params].

End PreciousMetal.

(* ================================================================== *)
(** ** Fixed income ([fixed-income.ts])                                *)
(* ================================================================== *)

Module FixedIncome.

Inductive CompoundingMethod : Type := simple | annual.

Record FixedIncomeParams : Type := {
  name : string;
  principal : num;
  annualYield : num;
  maturityYears : num;
  compoundingMethod : CompoundingMethod;
  reinvestAtMaturity : bool;
  timeHorizon : num
}.

(** The value pushed for one year. *)
Definition year_value {o : PowOracle} (params : FixedIncomeParams) (year : nat) : num :=
  match compoundingMethod params with
  | simple =>
      if reinvestAtMaturity params then
        let completedCycles := Math_floor (of_nat year / maturityYears params) in
        let remainder := rem (of_nat year) (maturityYears params) in
        let cycleMultiplier := 1 + annualYield params * maturityYears params in
        principal params * Math_pow cycleMultiplier completedCycles
        * (1 + annualYield params * remainder)
      else
        let effectiveYears := Math_min (of_nat year) (maturityYears params) in
        principal params * (1 + annualYield params * effectiveYears)
  | annual =>
      if reinvestAtMaturity params then
        principal params * Math_pow (1 + annualYield params) (of_nat year)
      else
        let effectiveYears := Math_min (of_nat year) (maturityYears params) in
        principal params * Math_pow (1 + annualYield params) effectiveYears
  end.

Definition year_body {o : PowOracle} (params : FixedIncomeParams)
           (year : nat) (values : list num) : list num :=
  values ++ [year_value params year].

Definition computeFixedIncomeValues {o : PowOracle} (params : FixedIncomeParams)
           (years : nat) : list num :=
  for_loop (year_body params) years [principal params].

End FixedIncome.

(* ================================================================== *)
(** ** Validation ([validation.ts])                                    *)
(* ================================================================== *)

Module Validation.

Record ValidationError : Type := {
  field : string;
  message : string
}.

(** [if (cond) errors.push(e)]. *)
Definition push_if (cond : bool) (e : ValidationError)
           (errors : list ValidationError) : list ValidationError :=
  if cond then errors ++ [e] else errors.

Definition validateSecurityParams (params : Security.SecurityParams)
  : list ValidationError :=
  let errors := [] in
  let errors := push_if (lt (Security.initialInvestment params) 0)
    {| field := "initialInvestment";
       message := "Initial investment must be non-negative" |} errors in
  let errors := push_if (lt (Security.annualReturn params) (of_Z (-1)))
    {| field := "annualReturn";
       message := "Annual return cannot be less than -100%" |} errors in
  let errors := push_if (le (Security.timeHorizon params) 0)
    {| field := "timeHorizon";
       message := "Time horizon must be greater than 0" |} errors in
  let errors := push_if (negb (Number_isInteger (Security.timeHorizon params)))
    {| field := "timeHorizon";
       message := "Time horizon must be a whole number" |} errors in
  let errors := push_if (lt (Security.expenseRatio params) 0)
    {| field := "expenseRatio";
       message := "Expense ratio must be non-negative" |} errors in
  let errors := push_if (gt (Security.expenseRatio params) 1)
    {| field := "expenseRatio";
       message := "Expense ratio cannot exceed 100%" |} errors in
  let errors := push_if (lt (Security.oneTimeFee params) 0)
    {| field := "oneTimeFee";
       message := "One-time fee must be non-negative" |} errors in
  let errors := push_if (gt (Security.oneTimeFee params)
                            (Security.initialInvestment params))
    {| field := "oneTimeFee";
       message := "One-time fee cannot exceed initial investment" |} errors in
  let errors := push_if (lt (Security.dividendYield params) 0)
    {| field := "dividendYield";
       message := "Dividend yield must be non-negative" |} errors in
  let errors := push_if (gt (Security.dividendYield params) 1)
    {| field := "dividendYield";
       message := "Dividend yield cannot exceed 100%" |} errors in
  errors.

Definition validateRentalParams (params : Rental.RentalPropertyParams)
  : list ValidationError :=
  let errors := [] in
  let errors := push_if (lt (Rental.purchasePrice params) 0)
    {| field := "purchasePrice";
       message := "Purchase price must be non-negative" |} errors in
  let errors := push_if (lt (Rental.downPayment params) 0)
    {| field := "downPayment";
       message := "Down payment must be non-negative" |} errors in
  let errors := push_if (gt (Rental.downPayment params) (Rental.purchasePrice params))
    {| field := "downPayment";
       message := "Down payment cannot exceed purchase price" |} errors in
  let errors := push_if (lt (Rental.mortgageRate params) 0)
    {| field := "mortgageRate";
       message := "Mortgage rate must be non-negative" |} errors in
  let errors := push_if (gt (Rental.mortgageRate params) 1)
    {| field := "mortgageRate";
       message := "Mortgage rate cannot exceed 100%" |} errors in
  let errors := push_if (le (Rental.mortgageDuration params) 0)
    {| field := "mortgageDuration";
       message := "Mortgage duration must be greater than 0" |} errors in
  let errors := push_if (negb (Number_isInteger (Rental.mortgageDuration params)))
    {| field := "mortgageDuration";
       message := "Mortgage duration must be a whole number" |} errors in
  let errors := push_if (lt (ToNumber (Rental.monthlyRentalIncome params)) 0)
    {| field := "monthlyRentalIncome";
       message := "Monthly rental income must be non-negative" |} errors in
  let errors := push_if (lt (Rental.annualAppreciation params) (of_Z (-1)))
    {| field := "annualAppreciation";
       message := "Annual appreciation cannot be less than -100%" |} errors in
  let errors := push_if (le (Rental.timeHorizon params) 0)
    {| field := "timeHorizon";
       message := "Time horizon must be greater than 0" |} errors in
  let errors := push_if (negb (Number_isInteger (Rental.timeHorizon params)))
    {| field := "timeHorizon";
       message := "Time horizon must be a whole number" |} errors in
  let errors := push_if (lt (Rental.maintenanceCostPercent params) 0)
    {| field := "maintenanceCostPercent";
       message := "Maintenance cost must be non-negative" |} errors in
  let errors := push_if (gt (Rental.maintenanceCostPercent params) 1)
    {| field := "maintenanceCostPercent";
       message := "Maintenance cost cannot exceed 100%" |} errors in
  let errors := push_if (lt (ToNumber (Rental.insuranceCost params)) 0)
    {| field := "insuranceCost";
       message := "Insurance cost must be non-negative" |} errors in
  let errors := push_if (lt (Rental.propertyTaxRate params) 0)
    {| field := "propertyTaxRate";
       message := "Property tax rate must be non-negative" |} errors in
  let errors := push_if (gt (Rental.propertyTaxRate params) 1)
    {| field := "propertyTaxRate";
       message := "Property tax rate cannot exceed 100%" |} errors in
  let errors := push_if (lt (Rental.vacancyRate params) 0)
    {| field := "vacancyRate";
       message := "Vacancy rate must be non-negative" |} errors in
  let errors := push_if (gt (Rental.vacancyRate params) 1)
    {| field := "vacancyRate";
       message := "Vacancy rate cannot exceed 100%" |} errors in
  let errors := push_if (lt (Rental.sellingCostPercent params) 0)
    {| field := "sellingCostPercent";
       message := "Selling cost must be non-negative" |} errors in
  let errors := push_if (gt (Rental.sellingCostPercent params) 1)
    {| field := "sellingCostPercent";
       message := "Selling cost cannot exceed 100%" |} errors in
  errors.

Definition validatePreciousMetalParams (params : PreciousMetal.PreciousMetalParams)
  : list ValidationError :=
  let errors := [] in
  let errors := push_if (lt (PreciousMetal.initialInvestment params) 0)
    {| field := "initialInvestment";
       message := "Initial investment must be non-negative" |} errors in
  let errors := push_if (lt (PreciousMetal.annualPriceIncrease params) (of_Z (-1)))
    {| field := "annualPriceIncrease";
       message := "Annual price increase cannot be less than -100%" |} errors in
  let errors := push_if (le (PreciousMetal.timeHorizon params) 0)
    {| field := "timeHorizon";
       message := "Time horizon must be greater than 0" |} errors in
  let errors := push_if (negb (Number_isInteger (PreciousMetal.timeHorizon params)))
    {| field := "timeHorizon";
       message := "Time horizon must be a whole number" |} errors in
  let errors := push_if (lt (PreciousMetal.transactionFeePercent params) 0)
    {| field := "transactionFeePercent";
       message := "Transaction fee must be non-negative" |} errors in
  let errors := push_if (gt (PreciousMetal.transactionFeePercent params) 1)
    {| field := "transactionFeePercent";
       message := "Transaction fee cannot exceed 100%" |} errors in
  errors.

Definition validateFixedIncomeParams (params : FixedIncome.FixedIncomeParams)
  : list ValidationError :=
  let errors := [] in
  let errors := push_if (lt (FixedIncome.principal params) 0)
    {| field := "principal";
       message := "Principal must be non-negative" |} errors in
  let errors := push_if (lt (FixedIncome.annualYield params) (of_Z (-1)))
    {| field := "annualYield";
       message := "Annual yield cannot be less than -100%" |} errors in
  let errors := push_if (le (FixedIncome.maturityYears params) 0)
    {| field := "maturityYears";
       message := "Maturity must be greater than 0" |} errors in
  let errors := push_if (negb (Number_isInteger (FixedIncome.maturityYears params)))
    {| field := "maturityYears";
       message := "Maturity must be a whole number" |} errors in
  let errors := push_if (le (FixedIncome.timeHorizon params) 0)
    {| field := "timeHorizon";
       message := "Time horizon must be greater than 0" |} errors in
  let errors := push_if (negb (Number_isInteger (FixedIncome.timeHorizon params)))
    {| field := "timeHorizon";
       message := "Time horizon must be a whole number" |} errors in
  errors.

End Validation.

(* ================================================================== *)
(** ** Definitions used by the statements                              *)
(* ================================================================== *)

(** [values[t]]: reading index [t] of a returned sequence. *)
Definition at_year (values : list num) (t : nat) : option num := nth_error values t.

Definition all_finite (values : list num) : Prop :=
  Forall (fun v => is_finite v = true) values.

(** [x^t] as a product of [t] factors. *)
Fixpoint pow_nat (x : num) (t : nat) : num :=
  match t with
  | O => 1
  | S k => x * pow_nat x k
  end.

(** An oracle for closed evaluations.  In each of them every exponent met by
    [Math_pow] is an integer or a special value, so it is never consulted. *)
Definition no_fractional_pow : PowOracle := fun _ _ => NaN.

(** What each loop pushes for one year, from the state the previous years
    left. *)
Definition security_out (params : Security.SecurityParams)
           (year : nat) (st : Security.state) : num :=
  Security.compoundedValue (Security.year_body params year st)
  + Security.accumulatedDividends (Security.year_body params year st).

Definition rental_out {o : PowOracle} (params : Rental.RentalPropertyParams)
           (year : nat) (st : Rental.state) : num :=
  let st' := Rental.year_body params year st in
  Rental.propertyValue st' - Rental.remainingMortgage st'
  - Rental.propertyValue st' * Rental.sellingCostPercent params
  + Rental.cumulativeCashFlow st'.

Definition metal_out {o : PowOracle} (params : PreciousMetal.PreciousMetalParams)
           (year : nat) (_ : list num) : num :=
  PreciousMetal.initialInvestment params
  * Math_pow (1 + PreciousMetal.annualPriceIncrease params) (of_nat year)
  * (1 - PreciousMetal.transactionFeePercent params).


(** Records that differ from a given one in named fields only
    ([{ ...params, field: value }]). *)
Definition set_transactionFeePercent (fee : num)
           (params : PreciousMetal.PreciousMetalParams) : PreciousMetal.PreciousMetalParams :=
  {| PreciousMetal.name := PreciousMetal.name params;
     PreciousMetal.initialInvestment := PreciousMetal.initialInvestment params;
     PreciousMetal.annualPriceIncrease := PreciousMetal.annualPriceIncrease params;
     PreciousMetal.timeHorizon := PreciousMetal.timeHorizon params;
     PreciousMetal.transactionFeePercent := fee |}.

Definition set_maturityYears (maturity : num)
           (params : FixedIncome.FixedIncomeParams) : FixedIncome.FixedIncomeParams :=
  {| FixedIncome.name := FixedIncome.name params;
     FixedIncome.principal := FixedIncome.principal params;
     FixedIncome.annualYield := FixedIncome.annualYield params;
     FixedIncome.maturityYears := maturity;
     FixedIncome.compoundingMethod := FixedIncome.compoundingMethod params;
     FixedIncome.reinvestAtMaturity := FixedIncome.reinvestAtMaturity params;
     FixedIncome.timeHorizon := FixedIncome.timeHorizon params |}.

(** The base record of the fixed-income tests, by compounding method,
    reinvestment policy and maturity. *)
Definition fixed_income_base (method : FixedIncome.CompoundingMethod)
           (reinvest : bool) (maturity : num) : FixedIncome.FixedIncomeParams :=
  {| FixedIncome.name := "Test CD";
     FixedIncome.principal := of_Z 10000;
     FixedIncome.annualYield := lit 5 100;
     FixedIncome.maturityYears := maturity;
     FixedIncome.compoundingMethod := method;
     FixedIncome.reinvestAtMaturity := reinvest;
     FixedIncome.timeHorizon := of_Z 10 |}.

(** The base record of the precious-metal tests, with a 2% fee. *)
Definition precious_metal_base : PreciousMetal.PreciousMetalParams :=
  {| PreciousMetal.name := "Test Gold";
     PreciousMetal.initialInvestment := of_Z 10000;
     PreciousMetal.annualPriceIncrease := lit 5 100;
     PreciousMetal.timeHorizon := of_Z 10;
     PreciousMetal.transactionFeePercent := lit 2 100 |}.

(** Every number the security projection reads is finite. *)
Definition finite_security (params : Security.SecurityParams) : bool :=
  is_finite (Security.initialInvestment params)
  && is_finite (Security.annualReturn params)
  && is_finite (Security.expenseRatio params)
  && is_finite (Security.oneTimeFee params)
  && is_finite (Security.dividendYield params).

(** The two tracks of a security whose dividends are not reinvested, in the
    words of the specification: the principal compounds at
    [annualReturn - expenseRatio]; each year's dividend cash is
    [dividendYield] times the compounded balance of the year before, and the
    cash adds up without compounding. *)
Fixpoint compoundedPrincipal (params : Security.SecurityParams) (t : nat) : num :=
  match t with
  | O => Security.initialInvestment params - Security.oneTimeFee params
  | S k => compoundedPrincipal params k
           * (1 + (Security.annualReturn params - Security.expenseRatio params))
  end.

Fixpoint cumulativeDividendCash (params : Security.SecurityParams) (t : nat) : num :=
  match t with
  | O => 0
  | S k => cumulativeDividendCash params k
           + compoundedPrincipal params k * Security.dividendYield params
  end.

(** A security that loses everything in a year ([annualReturn = -100%], the
    lowest value the validator accepts), paying a 2% dividend that is not
    reinvested. *)
Definition security_total_loss : Security.SecurityParams :=
  {| Security.name := "Test Security";
     Security.initialInvestment := of_Z 10000;
     Security.annualReturn := of_Z (-1);
     Security.timeHorizon := of_Z 10;
     Security.expenseRatio := 0;
     Security.oneTimeFee := 0;
     Security.dividendYield := lit 2 100;
     Security.reinvestDividends := false |}.

(** Every number the fixed-income projection reads is finite. *)
Definition finite_fixed (params : FixedIncome.FixedIncomeParams) : bool :=
  is_finite (FixedIncome.principal params)
  && is_finite (FixedIncome.annualYield params)
  && is_finite (FixedIncome.maturityYears params).

(** [DEFAULT_RENTAL_PARAMS] of the value-relative variant of the record. *)
Definition DEFAULT_RENTAL_PARAMS : Rental.RentalPropertyParams :=
  {| Rental.name := "";
     Rental.purchasePrice := of_Z 300000;
     Rental.downPayment := of_Z 60000;
     Rental.mortgageRate := lit 65 1000;
     Rental.mortgageDuration := of_Z 30;
     Rental.monthlyRentalPercent := Some (lit 1 100);
     Rental.annualAppreciation := lit 3 100;
     Rental.timeHorizon := of_Z 30;
     Rental.maintenanceCostPercent := lit 1 100;
     Rental.annualInsuranceCostPercent := Some (lit 1 100);
     Rental.propertyTaxRate := lit 12 1000;
     Rental.vacancyRate := lit 5 100;
     Rental.sellingCostPercent := lit 6 100;
     Rental.monthlyRentalIncome := None;
     Rental.insuranceCost := None |}.

(** The mortgage schedule in the words of the specification, with the guard
    the code has: a year pays when it is within [mortgageDuration] and the
    mortgage amount [purchasePrice - downPayment] is positive. *)
Definition scheduled_payment {o : PowOracle} (params : Rental.RentalPropertyParams)
           (year : nat) : num :=
  if le (of_nat year) (Rental.mortgageDuration params)
     && gt (Rental.purchasePrice params - Rental.downPayment params) 0
  then Rental.annualMortgagePayment params
  else 0.

Fixpoint scheduled_balance {o : PowOracle} (params : Rental.RentalPropertyParams)
         (t : nat) : num :=
  match t with
  | O => Rental.purchasePrice params - Rental.downPayment params
  | S k =>
      let remainingBalance := scheduled_balance params k in
      if le (of_nat (S k)) (Rental.mortgageDuration params)
         && gt (Rental.purchasePrice params - Rental.downPayment params) 0
      then
        let interest := remainingBalance * Rental.mortgageRate params in
        let principalPaid :=
          Math_min (Rental.annualMortgagePayment params - interest) remainingBalance in
        Math_max (remainingBalance - principalPaid) 0
      else remainingBalance
  end.

(** The rental test record in the value-relative variant, without income,
    appreciation or costs, by mortgage rate and duration. *)
Definition rental_plain (rate duration : num) : Rental.RentalPropertyParams :=
  {| Rental.name := "Test Rental";
     Rental.purchasePrice := of_Z 300000;
     Rental.downPayment := of_Z 60000;
     Rental.mortgageRate := rate;
     Rental.mortgageDuration := duration;
     Rental.monthlyRentalPercent := Some 0;
     Rental.annualAppreciation := 0;
     Rental.timeHorizon := of_Z 30;
     Rental.maintenanceCostPercent := 0;
     Rental.annualInsuranceCostPercent := Some 0;
     Rental.propertyTaxRate := 0;
     Rental.vacancyRate := 0;
     Rental.sellingCostPercent := 0;
     Rental.monthlyRentalIncome := None;
     Rental.insuranceCost := None |}.

(** The record of the rental test "computes zero appreciation correctly"
    (no appreciation, no interest, no rent, over 30 years), with a
    maintenance cost of 1% of the property value. *)
Definition rental_flat_with_upkeep : Rental.RentalPropertyParams :=
  {| Rental.name := "Test Rental";
     Rental.purchasePrice := of_Z 300000;
     Rental.downPayment := of_Z 60000;
     Rental.mortgageRate := 0;
     Rental.mortgageDuration := of_Z 30;
     Rental.monthlyRentalPercent := Some 0;
     Rental.annualAppreciation := 0;
     Rental.timeHorizon := of_Z 30;
     Rental.maintenanceCostPercent := lit 1 100;
     Rental.annualInsuranceCostPercent := Some 0;
     Rental.propertyTaxRate := 0;
     Rental.vacancyRate := 0;
     Rental.sellingCostPercent := 0;
     Rental.monthlyRentalIncome := None;
     Rental.insuranceCost := None |}.

(** A rental record without appreciation, interest or rent, and without
    running or selling costs. *)
Definition rental_without_flows (params : Rental.RentalPropertyParams) : Prop :=
  Rental.annualAppreciation params = 0
  /\ Rental.mortgageRate params = 0
  /\ ToNumber (Rental.monthlyRentalPercent params) = 0
  /\ Rental.maintenanceCostPercent params = 0
  /\ ToNumber (Rental.annualInsuranceCostPercent params) = 0
  /\ Rental.propertyTaxRate params = 0
  /\ Rental.sellingCostPercent params = 0.

(** The cash flow such a record has accumulated after [t] years: nothing
    comes in, and each year's payment goes out. *)
Fixpoint cash_after_payments {o : PowOracle} (params : Rental.RentalPropertyParams)
         (t : nat) : num :=
  match t with
  | O => 0
  | S k => cash_after_payments params k - scheduled_payment params (S k)
  end.

(** The bounds of the data model, per record: the field, and whether its
    value violates the bound.  For the rental record these are the bounds of
    the fixed-amount variant, the one the validator is written for. *)
Definition security_bounds (params : Security.SecurityParams) : list (string * bool) :=
  [ ("initialInvestment", lt (Security.initialInvestment params) 0);
    ("annualReturn", lt (Security.annualReturn params) (of_Z (-1)));
    ("timeHorizon", le (Security.timeHorizon params) 0);
    ("timeHorizon", negb (Number_isInteger (Security.timeHorizon params)));
    ("expenseRatio", lt (Security.expenseRatio params) 0);
    ("expenseRatio", gt (Security.expenseRatio params) 1);
    ("oneTimeFee", lt (Security.oneTimeFee params) 0);
    ("oneTimeFee", gt (Security.oneTimeFee params) (Security.initialInvestment params));
    ("dividendYield", lt (Security.dividendYield params) 0);
    ("dividendYield", gt (Security.dividendYield params) 1) ].

Definition rental_bounds (params : Rental.RentalPropertyParams) : list (string * bool) :=
  [ ("purchasePrice", lt (Rental.purchasePrice params) 0);
    ("downPayment", lt (Rental.downPayment params) 0);
    ("downPayment", gt (Rental.downPayment params) (Rental.purchasePrice params));
    ("mortgageRate", lt (Rental.mortgageRate params) 0);
    ("mortgageRate", gt (Rental.mortgageRate params) 1);
    ("mortgageDuration", le (Rental.mortgageDuration params) 0);
    ("mortgageDuration", negb (Number_isInteger (Rental.mortgageDuration params)));
    ("monthlyRentalIncome", lt (ToNumber (Rental.monthlyRentalIncome params)) 0);
    ("annualAppreciation", lt (Rental.annualAppreciation params) (of_Z (-1)));
    ("timeHorizon", le (Rental.timeHorizon params) 0);
    ("timeHorizon", negb (Number_isInteger (Rental.timeHorizon params)));
    ("maintenanceCostPercent", lt (Rental.maintenanceCostPercent params) 0);
    ("maintenanceCostPercent", gt (Rental.maintenanceCostPercent params) 1);
    ("insuranceCost", lt (ToNumber (Rental.insuranceCost params)) 0);
    ("propertyTaxRate", lt (Rental.propertyTaxRate params) 0);
    ("propertyTaxRate", gt (Rental.propertyTaxRate params) 1);
    ("vacancyRate", lt (Rental.vacancyRate params) 0);
    ("vacancyRate", gt (Rental.vacancyRate params) 1);
    ("sellingCostPercent", lt (Rental.sellingCostPercent params) 0);
    ("sellingCostPercent", gt (Rental.sellingCostPercent params) 1) ].

Definition precious_metal_bounds (params : PreciousMetal.PreciousMetalParams)
  : list (string * bool) :=
  [ ("initialInvestment", lt (PreciousMetal.initialInvestment params) 0);
    ("annualPriceIncrease", lt (PreciousMetal.annualPriceIncrease params) (of_Z (-1)));
    ("timeHorizon", le (PreciousMetal.timeHorizon params) 0);
    ("timeHorizon", negb (Number_isInteger (PreciousMetal.timeHorizon params)));
    ("transactionFeePercent", lt (PreciousMetal.transactionFeePercent params) 0);
    ("transactionFeePercent", gt (PreciousMetal.transactionFeePercent params) 1) ].

Definition fixed_income_bounds (params : FixedIncome.FixedIncomeParams)
  : list (string * bool) :=
  [ ("principal", lt (FixedIncome.principal params) 0);
    ("annualYield", lt (FixedIncome.annualYield params) (of_Z (-1)));
    ("maturityYears", le (FixedIncome.maturityYears params) 0);
    ("maturityYears", negb (Number_isInteger (FixedIncome.maturityYears params)));
    ("timeHorizon", le (FixedIncome.timeHorizon params) 0);
    ("timeHorizon", negb (Number_isInteger (FixedIncome.timeHorizon params))) ].

(** The fields of the violated bounds, in order. *)
Definition violated_fields (bounds : list (string * bool)) : list string :=
  map fst (filter snd bounds).

(** A list of errors reports a list of bounds when it has one entry per
    violated bound, in order, each naming the field of its bound.  Then it is
    empty exactly when no bound is violated, and every violated bound has an
    entry that names its field. *)
Definition reports (errors : list Validation.ValidationError)
           (bounds : list (string * bool)) : Prop :=
  map Validation.field errors = violated_fields bounds
  /\ (errors = [] <-> forall b, In b bounds -> snd b = false)
  /\ (forall f, In (f, true) bounds ->
                exists e, In e errors /\ Validation.field e = f).

(** The base records of the validator tests. *)
Definition security_base : Security.SecurityParams :=
  {| Security.name := "Test Security";
     Security.initialInvestment := of_Z 10000;
     Security.annualReturn := lit 1 10;
     Security.timeHorizon := of_Z 10;
     Security.expenseRatio := 0;
     Security.oneTimeFee := 0;
     Security.dividendYield := 0;
     Security.reinvestDividends := true |}.

Definition rental_base : Rental.RentalPropertyParams :=
  {| Rental.name := "Test Rental";
     Rental.purchasePrice := of_Z 300000;
     Rental.downPayment := of_Z 60000;
     Rental.mortgageRate := lit 6 100;
     Rental.mortgageDuration := of_Z 30;
     Rental.monthlyRentalPercent := None;
     Rental.annualAppreciation := lit 3 100;
     Rental.timeHorizon := of_Z 30;
     Rental.maintenanceCostPercent := 0;
     Rental.annualInsuranceCostPercent := None;
     Rental.propertyTaxRate := 0;
     Rental.vacancyRate := 0;
     Rental.sellingCostPercent := 0;
     Rental.monthlyRentalIncome := Some (of_Z 2000);
     Rental.insuranceCost := Some 0 |}.

(** A record that differs from a given one in the two value-relative fields
    only. *)
Definition set_percent_fields (monthlyRentalPercent annualInsuranceCostPercent : option num)
           (params : Rental.RentalPropertyParams) : Rental.RentalPropertyParams :=
  {| Rental.name := Rental.name params;
     Rental.purchasePrice := Rental.purchasePrice params;
     Rental.downPayment := Rental.downPayment params;
     Rental.mortgageRate := Rental.mortgageRate params;
     Rental.mortgageDuration := Rental.mortgageDuration params;
     Rental.monthlyRentalPercent := monthlyRentalPercent;
     Rental.annualAppreciation := Rental.annualAppreciation params;
     Rental.timeHorizon := Rental.timeHorizon params;
     Rental.maintenanceCostPercent := Rental.maintenanceCostPercent params;
     Rental.annualInsuranceCostPercent := annualInsuranceCostPercent;
     Rental.propertyTaxRate := Rental.propertyTaxRate params;
     Rental.vacancyRate := Rental.vacancyRate params;
     Rental.sellingCostPercent := Rental.sellingCostPercent params;
     Rental.monthlyRentalIncome := Rental.monthlyRentalIncome params;
     Rental.insuranceCost := Rental.insuranceCost params |}.

(** The security base record with an expense ratio of 150%. *)
Definition security_expense_over : Security.SecurityParams :=
  {| Security.name := "Test Security";
     Security.initialInvestment := of_Z 10000;
     Security.annualReturn := lit 1 10;
     Security.timeHorizon := of_Z 10;
     Security.expenseRatio := lit 15 10;
     Security.oneTimeFee := 0;
     Security.dividendYield := 0;
     Security.reinvestDividends := true |}.

(* ================================================================== *)
(** ** Further definitions used by the statements                      *)
(* ================================================================== *)

Definition set_compounding (method : FixedIncome.CompoundingMethod) (reinvest : bool)
           (params : FixedIncome.FixedIncomeParams) : FixedIncome.FixedIncomeParams :=
  {| FixedIncome.name := FixedIncome.name params;
     FixedIncome.principal := FixedIncome.principal params;
     FixedIncome.annualYield := FixedIncome.annualYield params;
     FixedIncome.maturityYears := FixedIncome.maturityYears params;
     FixedIncome.compoundingMethod := method;
     FixedIncome.reinvestAtMaturity := reinvest;
     FixedIncome.timeHorizon := FixedIncome.timeHorizon params |}.

Definition set_sellingCostPercent (cost : num)
           (params : Rental.RentalPropertyParams) : Rental.RentalPropertyParams :=
  {| Rental.name := Rental.name params;
     Rental.purchasePrice := Rental.purchasePrice params;
     Rental.downPayment := Rental.downPayment params;
     Rental.mortgageRate := Rental.mortgageRate params;
     Rental.mortgageDuration := Rental.mortgageDuration params;
     Rental.monthlyRentalPercent := Rental.monthlyRentalPercent params;
     Rental.annualAppreciation := Rental.annualAppreciation params;
     Rental.timeHorizon := Rental.timeHorizon params;
     Rental.maintenanceCostPercent := Rental.maintenanceCostPercent params;
     Rental.annualInsuranceCostPercent := Rental.annualInsuranceCostPercent params;
     Rental.propertyTaxRate := Rental.propertyTaxRate params;
     Rental.vacancyRate := Rental.vacancyRate params;
     Rental.sellingCostPercent := cost;
     Rental.monthlyRentalIncome := Rental.monthlyRentalIncome params;
     Rental.insuranceCost := Rental.insuranceCost params |}.

Definition set_mortgage_terms (rate duration : num)
           (params : Rental.RentalPropertyParams) : Rental.RentalPropertyParams :=
  {| Rental.name := Rental.name params;
     Rental.purchasePrice := Rental.purchasePrice params;
     Rental.downPayment := Rental.downPayment params;
     Rental.mortgageRate := rate;
     Rental.mortgageDuration := duration;
     Rental.monthlyRentalPercent := Rental.monthlyRentalPercent params;
     Rental.annualAppreciation := Rental.annualAppreciation params;
     Rental.timeHorizon := Rental.timeHorizon params;
     Rental.maintenanceCostPercent := Rental.maintenanceCostPercent params;
     Rental.annualInsuranceCostPercent := Rental.annualInsuranceCostPercent params;
     Rental.propertyTaxRate := Rental.propertyTaxRate params;
     Rental.vacancyRate := Rental.vacancyRate params;
     Rental.sellingCostPercent := Rental.sellingCostPercent params;
     Rental.monthlyRentalIncome := Rental.monthlyRentalIncome params;
     Rental.insuranceCost := Rental.insuranceCost params |}.

(** The record of the rental test "handles fully paid property", with a rent
    of 1% of the property value a month. *)
Definition rental_paid_in_full : Rental.RentalPropertyParams :=
  {| Rental.name := "Test Rental";
     Rental.purchasePrice := of_Z 300000;
     Rental.downPayment := of_Z 300000;
     Rental.mortgageRate := lit 6 100;
     Rental.mortgageDuration := of_Z 30;
     Rental.monthlyRentalPercent := Some (lit 1 100);
     Rental.annualAppreciation := lit 3 100;
     Rental.timeHorizon := of_Z 30;
     Rental.maintenanceCostPercent := 0;
     Rental.annualInsuranceCostPercent := Some 0;
     Rental.propertyTaxRate := 0;
     Rental.vacancyRate := 0;
     Rental.sellingCostPercent := 0;
     Rental.monthlyRentalIncome := None;
     Rental.insuranceCost := None |}.

(* ================================================================== *)
(** ** The application state and the chart series ([App.tsx])          *)
(* ================================================================== *)

(** The number of times the body of
    [for (let year = 1; year <= years; year++)] runs for a number [years]:
    once for each whole year up to [years]; [None] when the loop does not
    end ([years = +Infinity]). *)
Definition loop_years (years : num) : option nat :=
  match years with
  | Fin q => Some (Z.to_nat (Qfloor q))
  | PInf => None
  | NInf | NaN => Some O
  end.

(** [Math.max(...args)]: [-Infinity] without arguments, [NaN] if any
    argument is. *)
Definition Math_max_args (args : list num) : num := fold_left Math_max args NInf.

(** A whole number in a template literal. *)
Definition Number_toString (n : nat) : string :=
  NilEmpty.string_of_uint (Nat.to_uint n).

Definition DEFAULT_SECURITY_PARAMS : Security.SecurityParams :=
  {| Security.name := "";
     Security.initialInvestment := of_Z 10000;
     Security.annualReturn := lit 7 100;
     Security.timeHorizon := of_Z 30;
     Security.expenseRatio := lit 1 1000;
     Security.oneTimeFee := 0;
     Security.dividendYield := 0;
     Security.reinvestDividends := true |}.

Definition DEFAULT_PRECIOUS_METAL_PARAMS : PreciousMetal.PreciousMetalParams :=
  {| PreciousMetal.name := "";
     PreciousMetal.initialInvestment := of_Z 10000;
     PreciousMetal.annualPriceIncrease := lit 5 100;
     PreciousMetal.timeHorizon := of_Z 30;
     PreciousMetal.transactionFeePercent := lit 2 100 |}.

Definition DEFAULT_FIXED_INCOME_PARAMS : FixedIncome.FixedIncomeParams :=
  {| FixedIncome.name := "";
     FixedIncome.principal := of_Z 10000;
     FixedIncome.annualYield := lit 5 100;
     FixedIncome.maturityYears := of_Z 5;
     FixedIncome.compoundingMethod := FixedIncome.annual;
     FixedIncome.reinvestAtMaturity := true;
     FixedIncome.timeHorizon := of_Z 30 |}.

Module App.

Inductive AssetType : Type :=
| security
| rental_property
| precious_metal
| fixed_income.

(** [InvestmentEntry]: an entry carries the parameters of its own type. *)
Inductive InvestmentEntry : Type :=
| SecurityEntry (id : string) (params : Security.SecurityParams)
| RentalEntry (id : string) (params : Rental.RentalPropertyParams)
| PreciousMetalEntry (id : string) (params : PreciousMetal.PreciousMetalParams)
| FixedIncomeEntry (id : string) (params : FixedIncome.FixedIncomeParams).

Definition id (inv : InvestmentEntry) : string :=
  match inv with
  | SecurityEntry i _ | RentalEntry i _ | PreciousMetalEntry i _
  | FixedIncomeEntry i _ => i
  end.

(** [inv.params.timeHorizon] and [inv.params.name]. *)
Definition timeHorizon (inv : InvestmentEntry) : num :=
  match inv with
  | SecurityEntry _ p => Security.timeHorizon p
  | RentalEntry _ p => Rental.timeHorizon p
  | PreciousMetalEntry _ p => PreciousMetal.timeHorizon p
  | FixedIncomeEntry _ p => FixedIncome.timeHorizon p
  end.

(** The state of the page: the component's state variables and the module
    counter [nextId]. *)
Record state : Type := {
  investments : list InvestmentEntry;
  securityCount : nat;
  rentalCount : nat;
  preciousMetalCount : nat;
  fixedIncomeCount : nat;
  showTypeMenu : bool;
  nextId : nat
}.

Definition initial_state : state :=
  {| investments := [];
     securityCount := 0;
     rentalCount := 0;
     preciousMetalCount := 0;
     fixedIncomeCount := 0;
     showTypeMenu := false;
     nextId := 1 |}.

(** [`inv-${nextId++}`]. *)
Definition generateId (st : state) : string * state :=
  ("inv-" ++ Number_toString (nextId st),
   {| investments := investments st;
      securityCount := securityCount st;
      rentalCount := rentalCount st;
      preciousMetalCount := preciousMetalCount st;
      fixedIncomeCount := fixedIncomeCount st;
      showTypeMenu := showTypeMenu st;
      nextId := S (nextId st) |})%string.

Definition security_named (name : string) (p : Security.SecurityParams)
  : Security.SecurityParams :=
  {| Security.name := name;
     Security.initialInvestment := Security.initialInvestment p;
     Security.annualReturn := Security.annualReturn p;
     Security.timeHorizon := Security.timeHorizon p;
     Security.expenseRatio := Security.expenseRatio p;
     Security.oneTimeFee := Security.oneTimeFee p;
     Security.dividendYield := Security.dividendYield p;
     Security.reinvestDividends := Security.reinvestDividends p |}.

Definition rental_named (name : string) (p : Rental.RentalPropertyParams)
  : Rental.RentalPropertyParams :=
  {| Rental.name := name;
     Rental.purchasePrice := Rental.purchasePrice p;
     Rental.downPayment := Rental.downPayment p;
     Rental.mortgageRate := Rental.mortgageRate p;
     Rental.mortgageDuration := Rental.mortgageDuration p;
     Rental.monthlyRentalPercent := Rental.monthlyRentalPercent p;
     Rental.annualAppreciation := Rental.annualAppreciation p;
     Rental.timeHorizon := Rental.timeHorizon p;
     Rental.maintenanceCostPercent := Rental.maintenanceCostPercent p;
     Rental.annualInsuranceCostPercent := Rental.annualInsuranceCostPercent p;
     Rental.propertyTaxRate := Rental.propertyTaxRate p;
     Rental.vacancyRate := Rental.vacancyRate p;
     Rental.sellingCostPercent := Rental.sellingCostPercent p;
     Rental.monthlyRentalIncome := Rental.monthlyRentalIncome p;
     Rental.insuranceCost := Rental.insuranceCost p |}.

Definition precious_metal_named (name : string) (p : PreciousMetal.PreciousMetalParams)
  : PreciousMetal.PreciousMetalParams :=
  {| PreciousMetal.name := name;
     PreciousMetal.initialInvestment := PreciousMetal.initialInvestment p;
     PreciousMetal.annualPriceIncrease := PreciousMetal.annualPriceIncrease p;
     PreciousMetal.timeHorizon := PreciousMetal.timeHorizon p;
     PreciousMetal.transactionFeePercent := PreciousMetal.transactionFeePercent p |}.

Definition fixed_income_named (name : string) (p : FixedIncome.FixedIncomeParams)
  : FixedIncome.FixedIncomeParams :=
  {| FixedIncome.name := name;
     FixedIncome.principal := FixedIncome.principal p;
     FixedIncome.annualYield := FixedIncome.annualYield p;
     FixedIncome.maturityYears := FixedIncome.maturityYears p;
     FixedIncome.compoundingMethod := FixedIncome.compoundingMethod p;
     FixedIncome.reinvestAtMaturity := FixedIncome.reinvestAtMaturity p;
     FixedIncome.timeHorizon := FixedIncome.timeHorizon p |}.

Definition addInvestment (type : AssetType) (st0 : state) : state :=
  let '(id, st) := generateId st0 in
  match type with
  | security =>
      let count := (securityCount st + 1)%nat in
      {| investments :=
           investments st
           ++ [SecurityEntry id
                 (security_named ("Security #" ++ Number_toString count)%string
                                 DEFAULT_SECURITY_PARAMS)];
         securityCount := count;
         rentalCount := rentalCount st;
         preciousMetalCount := preciousMetalCount st;
         fixedIncomeCount := fixedIncomeCount st;
         showTypeMenu := false;
         nextId := nextId st |}
  | rental_property =>
      let count := (rentalCount st + 1)%nat in
      {| investments :=
           investments st
           ++ [RentalEntry id
                 (rental_named ("Rental Property #" ++ Number_toString count)%string
                               DEFAULT_RENTAL_PARAMS)];
         securityCount := securityCount st;
         rentalCount := count;
         preciousMetalCount := preciousMetalCount st;
         fixedIncomeCount := fixedIncomeCount st;
         showTypeMenu := false;
         nextId := nextId st |}
  | precious_metal =>
      let count := (preciousMetalCount st + 1)%nat in
      {| investments :=
           investments st
           ++ [PreciousMetalEntry id
                 (precious_metal_named
                    ("Precious Metal #" ++ Number_toString count)%string
                    DEFAULT_PRECIOUS_METAL_PARAMS)];
         securityCount := securityCount st;
         rentalCount := rentalCount st;
         preciousMetalCount := count;
         fixedIncomeCount := fixedIncomeCount st;
         showTypeMenu := false;
         nextId := nextId st |}
  | fixed_income =>
      let count := (fixedIncomeCount st + 1)%nat in
      {| investments :=
           investments st
           ++ [FixedIncomeEntry id
                 (fixed_income_named
                    ("Fixed Income #" ++ Number_toString count)%string
                    DEFAULT_FIXED_INCOME_PARAMS)];
         securityCount := securityCount st;
         rentalCount := rentalCount st;
         preciousMetalCount := preciousMetalCount st;
         fixedIncomeCount := count;
         showTypeMenu := false;
         nextId := nextId st |}
  end.

Definition deleteInvestment (id0 : string) (st : state) : state :=
  {| investments :=
       filter (fun inv => negb (String.eqb (id inv) id0)) (investments st);
     securityCount := securityCount st;
     rentalCount := rentalCount st;
     preciousMetalCount := preciousMetalCount st;
     fixedIncomeCount := fixedIncomeCount st;
     showTypeMenu := showTypeMenu st;
     nextId := nextId st |}.

(** One element of the chart data. *)
Record ChartSeries : Type := {
  name : string;
  values : list num;
  initialInvestment : num
}.

(** [validateXParams(inv.params).length === 0], by the type of the entry. *)
Definition is_valid (inv : InvestmentEntry) : bool :=
  match inv with
  | SecurityEntry _ p =>
      Nat.eqb (List.length (Validation.validateSecurityParams p)) 0
  | RentalEntry _ p =>
      Nat.eqb (List.length (Validation.validateRentalParams p)) 0
  | PreciousMetalEntry _ p =>
      Nat.eqb (List.length (Validation.validatePreciousMetalParams p)) 0
  | FixedIncomeEntry _ p =>
      Nat.eqb (List.length (Validation.validateFixedIncomeParams p)) 0
  end.

(** [name || 'Untitled']: the empty string is falsy. *)
Definition name_or_untitled (name : string) : string :=
  match name with
  | EmptyString => "Untitled"
  | _ => name
  end.

(** The series of one investment: its projection over its own horizon.
    [None] when the projection loop does not end. *)
Definition series_of {o : PowOracle} (inv : InvestmentEntry) : option ChartSeries :=
  match inv with
  | SecurityEntry _ p =>
      match loop_years (Security.timeHorizon p) with
      | Some years =>
          Some {| name := name_or_untitled (Security.name p);
                  values := Security.computeSecurityValues p years;
                  initialInvestment := Security.initialInvestment p |}
      | None => None
      end
  | RentalEntry _ p =>
      match loop_years (Rental.timeHorizon p) with
      | Some years =>
          Some {| name := name_or_untitled (Rental.name p);
                  values := Rental.computeRentalValues p years;
                  initialInvestment := Rental.downPayment p |}
      | None => None
      end
  | PreciousMetalEntry _ p =>
      match loop_years (PreciousMetal.timeHorizon p) with
      | Some years =>
          Some {| name := name_or_untitled (PreciousMetal.name p);
                  values := PreciousMetal.computePreciousMetalValues p years;
                  initialInvestment := PreciousMetal.initialInvestment p |}
      | None => None
      end
  | FixedIncomeEntry _ p =>
      match loop_years (FixedIncome.timeHorizon p) with
      | Some years =>
          Some {| name := name_or_untitled (FixedIncome.name p);
                  values := FixedIncome.computeFixedIncomeValues p years;
                  initialInvestment := FixedIncome.principal p |}
      | None => None
      end
  end.

(** [array.map(f)] for an [f] that may not return. *)
Fixpoint map_all {A B : Type} (f : A -> option B) (l : list A) : option (list B) :=
  match l with
  | [] => Some []
  | x :: l' =>
      match f x, map_all f l' with
      | Some y, Some ys => Some (y :: ys)
      | _, _ => None
      end
  end.

(** [chartData]: the series of the valid investments and the year range. *)
Definition chartData {o : PowOracle} (debouncedInvestments : list InvestmentEntry)
  : option (list ChartSeries * num) :=
  let validInvestments := filter is_valid debouncedInvestments in
  let maxYears := Math_max_args (map timeHorizon validInvestments ++ [0]) in
  match map_all series_of validInvestments with
  | Some series => Some (series, maxYears)
  | None => None
  end.

(** The events of the page that change the list of investments. *)
Inductive event : Type :=
| Add (type : AssetType)
| Delete (id : string).

Definition handle (e : event) (st : state) : state :=
  match e with
  | Add type => addInvestment type st
  | Delete id0 => deleteInvestment id0 st
  end.

Definition after (events : list event) : state :=
  fold_left (fun st e => handle e st) events initial_state.

End App.

(** [inv.params.name]. *)
Definition entry_name (inv : App.InvestmentEntry) : string :=
  match inv with
  | App.SecurityEntry _ p => Security.name p
  | App.RentalEntry _ p => Rental.name p
  | App.PreciousMetalEntry _ p => PreciousMetal.name p
  | App.FixedIncomeEntry _ p => FixedIncome.name p
  end.

(** The identifiers of the listed investments were all issued by
    [generateId], each to one entry. *)
Definition ids_issued (st : App.state) : Prop :=
  NoDup (map App.id (App.investments st))
  /\ forall inv, In inv (App.investments st) ->
       exists k : nat,
         (k < App.nextId st)%nat
         /\ App.id inv = ("inv-" ++ Number_toString k)%string.

(** The listed investments carry the names [addInvestment] gave them: the
    label of the type and a number up to the type's counter. *)
Definition named_by_count (st : App.state) (inv : App.InvestmentEntry) : Prop :=
  exists c : nat,
    match inv with
    | App.SecurityEntry _ p =>
        (c <= App.securityCount st)%nat
        /\ Security.name p = ("Security #" ++ Number_toString c)%string
    | App.RentalEntry _ p =>
        (c <= App.rentalCount st)%nat
        /\ Rental.name p = ("Rental Property #" ++ Number_toString c)%string
    | App.PreciousMetalEntry _ p =>
        (c <= App.preciousMetalCount st)%nat
        /\ PreciousMetal.name p = ("Precious Metal #" ++ Number_toString c)%string
    | App.FixedIncomeEntry _ p =>
        (c <= App.fixedIncomeCount st)%nat
        /\ FixedIncome.name p = ("Fixed Income #" ++ Number_toString c)%string
    end.

Definition names_issued (st : App.state) : Prop :=
  NoDup (map entry_name (App.investments st))
  /\ forall inv, In inv (App.investments st) -> named_by_count st inv.

(* ================================================================== *)
(** ** The plotted values ([components/InvestmentChart.tsx])           *)
(* ================================================================== *)

(** [Math.round]: the nearest whole number, a half going up. *)
Definition Math_round (x : num) : num :=
  match x with
  | Fin q => of_Z (Qfloor (q + Q2Qc (1 # 2))%Qc)
  | _ => x
  end.

Module Chart.

Definition MAX_ANNUALIZED_RATE : num := of_Z 500.

(** The state of the chart that the values depend on. *)
Record settings : Type := {
  isAnnualized : bool;
  inflationEnabled : bool;
  inflationRate : num
}.

Definition deflate {o : PowOracle} (value year rate : num) : num :=
  if strict_eq year 0 then value else value / Math_pow (1 + rate) year.

Definition adjust {o : PowOracle} (c : settings) (value year : num) : num :=
  if inflationEnabled c then deflate value year (inflationRate c) else value.

(** [values[y]] for a year [y] counted by a loop. *)
Definition value_at (values : list num) (y : nat) : num := nth y values NaN.

Definition combinedInitialInvestment (series : list App.ChartSeries) : num :=
  fold_left (fun sum s => sum + App.initialInvestment s) series 0.

Definition getCombinedValueAtYear (series : list App.ChartSeries) (y : nat) : num :=
  fold_left
    (fun total s =>
       if (y <? List.length (App.values s))%nat
       then total + value_at (App.values s) y
       else if (0 <? List.length (App.values s))%nat
            then total + value_at (App.values s) (List.length (App.values s) - 1)
            else total)
    series 0.

(** The annualized rate of a value against a positive base, held between
    -100 and the maximum. *)
Definition clamped_rate {o : PowOracle} (value base : num) (y : nat) : num :=
  let ratio := value / base in
  let annualizedRate :=
    if le ratio 0 then of_Z (-100)
    else (Math_pow ratio (1 / of_nat y) - 1) * of_Z 100 in
  Math_max (of_Z (-100)) (Math_min annualizedRate MAX_ANNUALIZED_RATE).

(** [point[s.name]] in the loop that builds the chart data: set only for a
    year the series has a value for. *)
Definition series_point {o : PowOracle} (c : settings) (s : App.ChartSeries) (y : nat)
  : option num :=
  if (y <? List.length (App.values s))%nat then
    if isAnnualized c then
      if le (App.initialInvestment s) 0 then
        let adjCurrent := adjust c (value_at (App.values s) y) (of_nat y) in
        let adjBase := adjust c (value_at (App.values s) 0) 0 in
        Some (if gt adjCurrent adjBase
              then MAX_ANNUALIZED_RATE else neg MAX_ANNUALIZED_RATE)
      else
        let adjValue := adjust c (value_at (App.values s) y) (of_nat y) in
        Some (clamped_rate adjValue (App.initialInvestment s) y)
    else
      Some (Math_round (adjust c (value_at (App.values s) y) (of_nat y) * of_Z 100)
            / of_Z 100)
  else None.

(** [point[COMBINED_NAME]], set when the combined line is shown. *)
Definition combined_point {o : PowOracle} (c : settings)
           (series : list App.ChartSeries) (y : nat) : num :=
  let combinedRaw := getCombinedValueAtYear series y in
  let combinedValue := adjust c combinedRaw (of_nat y) in
  if isAnnualized c then
    if le (combinedInitialInvestment series) 0 then
      let adjBase := adjust c (getCombinedValueAtYear series 0) 0 in
      if gt combinedValue adjBase
      then MAX_ANNUALIZED_RATE else neg MAX_ANNUALIZED_RATE
    else clamped_rate combinedValue (combinedInitialInvestment series) y
  else Math_round (combinedValue * of_Z 100) / of_Z 100.

(** [getDisplayValue] of the effect that places the legend; [None] is
    [null]. *)
Definition getDisplayValue {o : PowOracle} (c : settings) (s : App.ChartSeries)
           (y : nat) : option num :=
  if (List.length (App.values s) <=? y)%nat then None
  else
    let adj :=
      if inflationEnabled c
      then deflate (value_at (App.values s) y) (of_nat y) (inflationRate c)
      else value_at (App.values s) y in
    if negb (isAnnualized c) then Some adj
    else if le (App.initialInvestment s) 0 then
      let adjBase :=
        if inflationEnabled c
        then deflate (value_at (App.values s) 0) 0 (inflationRate c)
        else value_at (App.values s) 0 in
      Some (if gt adj adjBase then MAX_ANNUALIZED_RATE else neg MAX_ANNUALIZED_RATE)
    else
      let ratio := adj / App.initialInvestment s in
      if le ratio 0 then Some (of_Z (-100))
      else
        let rate := (Math_pow ratio (1 / of_nat y) - 1) * of_Z 100 in
        Some (Math_max (of_Z (-100)) (Math_min rate MAX_ANNUALIZED_RATE)).

End Chart.

(** The set of hidden series: a [Set] of names, kept as the list of its
    members in insertion order. *)
Definition Set_has (s : list string) (x : string) : bool :=
  existsb (String.eqb x) s.

Definition Set_delete (s : list string) (x : string) : list string :=
  filter (fun y => negb (String.eqb y x)) s.

Definition Set_add (s : list string) (x : string) : list string :=
  if Set_has s x then s else s ++ [x].

Definition toggleSeries (name : string) (prev : list string) : list string :=
  let next := prev in
  if Set_has next name then Set_delete next name else Set_add next name.
(* ================================================================== *)
(** ** Comparisons and equality of numbers                             *)
(* ================================================================== *)

Lemma Qc_ltb_lt (x y : Qc) : Qc_ltb x y = true <-> (x < y)%Qc.
Proof.
  unfold Qc_ltb. rewrite Qclt_alt.
  destruct (x ?= y)%Qc; split; congruence.
Qed.

Lemma Qc_leb_le (x y : Qc) : Qc_leb x y = true <-> (x <= y)%Qc.
Proof.
  unfold Qc_leb. rewrite Qcle_alt.
  destruct (x ?= y)%Qc; split; congruence.
Qed.

Lemma Qc_eqb_eq (x y : Qc) : Qc_eqb x y = true <-> x = y.
Proof.
  unfold Qc_eqb. rewrite Qceq_alt.
  destruct (x ?= y)%Qc; split; congruence.
Qed.

Lemma Qc_eqb_refl (x : Qc) : Qc_eqb x x = true.
Proof. now apply Qc_eqb_eq. Qed.

Lemma Qc_eqb_neq (x y : Qc) : Qc_eqb x y = false <-> x <> y.
Proof.
  rewrite <- Qc_eqb_eq. destruct (Qc_eqb x y); split; congruence.
Qed.

Lemma Qc_ltb_ge (x y : Qc) : Qc_ltb x y = false <-> (y <= x)%Qc.
Proof.
  split; intro H.
  - apply Qcnot_lt_le. intro L. apply Qc_ltb_lt in L. congruence.
  - destruct (Qc_ltb x y) eqn:E; [|reflexivity].
    apply Qc_ltb_lt in E. exfalso. revert E. now apply Qcle_not_lt.
Qed.

Lemma Qc_leb_gt (x y : Qc) : Qc_leb x y = false <-> (y < x)%Qc.
Proof.
  split; intro H.
  - apply Qcnot_le_lt. intro L. apply Qc_leb_le in L. congruence.
  - destruct (Qc_leb x y) eqn:E; [|reflexivity].
    apply Qc_leb_le in E. exfalso. revert E. now apply Qclt_not_le.
Qed.

Lemma num_eqb_eq (x y : num) : num_eqb x y = true -> x = y.
Proof.
  destruct x, y; simpl; try discriminate; try reflexivity.
  intros E. apply Qc_eqb_eq in E. now subst.
Qed.

Lemma nums_eqb_eq (xs ys : list num) : nums_eqb xs ys = true -> xs = ys.
Proof.
  revert ys. induction xs as [|x xs IH]; intros [|y ys]; simpl;
    try discriminate; try reflexivity.
  intros E. apply andb_prop in E as [E1 E2].
  apply num_eqb_eq in E1. apply IH in E2. now subst.
Qed.

(* ================================================================== *)
(** ** The loop                                                        *)
(* ================================================================== *)

Section Loop.
Context {S : Type} (body : nat -> S -> S).

Lemma for_years_last (count year : nat) (s : S) :
  for_years body (Datatypes.S count) year s
  = body (year + count)%nat (for_years body count year s).
Proof.
  revert year s. induction count as [|k IH]; intros year s.
  - simpl. now rewrite Nat.add_0_r.
  - change (for_years body (Datatypes.S (Datatypes.S k)) year s)
      with (for_years body (Datatypes.S k) (Datatypes.S year) (body year s)).
    rewrite IH. simpl. now rewrite Nat.add_succ_r.
Qed.

Lemma for_loop_S (years : nat) (s : S) :
  for_loop body (Datatypes.S years) s
  = body (Datatypes.S years) (for_loop body years s).
Proof. unfold for_loop. now rewrite for_years_last. Qed.

End Loop.

(** A loop whose body pushes one value per year onto a sequence that starts
    with one element: the result has one element per year on top of the
    initial one, and the element at index [t >= 1] is the one pushed in year
    [t], computed from the state left by year [t - 1]. *)
Section Pushed.
Context {S : Type} (body : nat -> S -> S).
Context (vals : S -> list num) (out : nat -> S -> num).
Hypothesis body_pushes : forall year st, vals (body year st) = vals st ++ [out year st].

Lemma loop_values (years : nat) (s : S) :
  vals (for_loop body years s)
  = vals s ++ map (fun t => out t (for_loop body (pred t) s)) (seq 1 years).
Proof.
  induction years as [|n IH].
  - simpl. now rewrite app_nil_r.
  - rewrite for_loop_S, body_pushes, IH, seq_S, map_app, <- app_assoc.
    reflexivity.
Qed.

Lemma loop_values_length (years : nat) (s : S) :
  length (vals (for_loop body years s)) = (length (vals s) + years)%nat.
Proof. now rewrite loop_values, length_app, length_map, length_seq. Qed.

Lemma loop_values_first (years : nat) (s : S) (v0 : num) :
  vals s = [v0] ->
  nth_error (vals (for_loop body years s)) 0 = Some v0.
Proof. intros E. rewrite loop_values, E. reflexivity. Qed.

Lemma loop_values_year (years : nat) (s : S) (v0 : num) (t : nat) :
  vals s = [v0] -> (1 <= t <= years)%nat ->
  nth_error (vals (for_loop body years s)) t
  = Some (out t (for_loop body (pred t) s)).
Proof.
  intros E Ht. rewrite loop_values, E.
  destruct t as [|k]; [lia|]. simpl.
  rewrite nth_error_map, nth_error_seq.
  destruct (Nat.ltb_spec k years); [reflexivity | lia].
Qed.
End Pushed.

Lemma security_pushes params year st :
  Security.values (Security.year_body params year st)
  = Security.values st ++ [security_out params year st].
Proof. reflexivity. Qed.

Lemma rental_pushes {o : PowOracle} params year st :
  Rental.values (Rental.year_body params year st)
  = Rental.values st ++ [rental_out params year st].
Proof.
  unfold rental_out, Rental.year_body.
  destruct (Rental.pays_mortgage params year); reflexivity.
Qed.

Lemma metal_pushes {o : PowOracle} params year (vs : list num) :
  PreciousMetal.year_body params year vs = vs ++ [metal_out params year vs].
Proof. reflexivity. Qed.

Lemma fixed_pushes {o : PowOracle} params year (vs : list num) :
  FixedIncome.year_body params year vs
  = vs ++ [(fun y (_ : list num) => FixedIncome.year_value params y) year vs].
Proof. reflexivity. Qed.

(* ================================================================== *)
(** ** Length and initial value                                        *)
(* ================================================================== *)

(** C1. Each of the four projections returns [years + 1] values, and the
    value at index 0 is [initialInvestment - oneTimeFee] for a security,
    [downPayment] for a rental property, [initialInvestment] for a precious
    metal and [principal] for a fixed-income instrument. *)
Theorem projection_length_and_initial_value :
  (forall (params : Security.SecurityParams) (years : nat),
      length (Security.computeSecurityValues params years) = (years + 1)%nat
      /\ at_year (Security.computeSecurityValues params years) 0
         = Some (Security.initialInvestment params - Security.oneTimeFee params))
  /\ (forall (o : PowOracle) (params : Rental.RentalPropertyParams) (years : nat),
      length (Rental.computeRentalValues params years) = (years + 1)%nat
      /\ at_year (Rental.computeRentalValues params years) 0
         = Some (Rental.downPayment params))
  /\ (forall (o : PowOracle) (params : PreciousMetal.PreciousMetalParams) (years : nat),
      length (PreciousMetal.computePreciousMetalValues params years) = (years + 1)%nat
      /\ at_year (PreciousMetal.computePreciousMetalValues params years) 0
         = Some (PreciousMetal.initialInvestment params))
  /\ (forall (o : PowOracle) (params : FixedIncome.FixedIncomeParams) (years : nat),
      length (FixedIncome.computeFixedIncomeValues params years) = (years + 1)%nat
      /\ at_year (FixedIncome.computeFixedIncomeValues params years) 0
         = Some (FixedIncome.principal params)).
Proof.
  repeat split.
  - unfold Security.computeSecurityValues, Security.run.
    rewrite (@loop_values_length _ _ _ _ (security_pushes params)). simpl. lia.
  - apply (@loop_values_first _ _ _ _ (security_pushes params)). reflexivity.
  - unfold Rental.computeRentalValues, Rental.run.
    rewrite (@loop_values_length _ _ _ _ (rental_pushes params)). simpl. lia.
  - apply (@loop_values_first _ _ _ _ (rental_pushes params)). reflexivity.
  - unfold PreciousMetal.computePreciousMetalValues.
    rewrite (@loop_values_length _ _ (fun vs => vs) _ (metal_pushes params)). simpl. lia.
  - apply (@loop_values_first _ _ (fun vs => vs) _ (metal_pushes params)). reflexivity.
  - unfold FixedIncome.computeFixedIncomeValues.
    rewrite (@loop_values_length _ _ (fun vs => vs) _ (fixed_pushes params)). simpl. lia.
  - apply (@loop_values_first _ _ (fun vs => vs) _ (fixed_pushes params)). reflexivity.
Qed.

(* ================================================================== *)
(** ** Integers among the numbers                                      *)
(* ================================================================== *)

Lemma this_Q2Qc_inject_Z (z : Z) : this (Q2Qc (inject_Z z)) = inject_Z z.
Proof.
  change (this (Q2Qc (inject_Z z))) with (Qred (inject_Z z)).
  apply Qred_identity. simpl. apply Z.gcd_1_r.
Qed.

Lemma Qc_compare_inject_Z (a b : Z) :
  (Q2Qc (inject_Z a) ?= Q2Qc (inject_Z b))%Qc = (a ?= b)%Z.
Proof.
  unfold Qccompare. rewrite !this_Q2Qc_inject_Z.
  unfold Qcompare, inject_Z. simpl. now rewrite !Z.mul_1_r.
Qed.

Lemma lt_of_Z (a b : Z) : lt (of_Z a) (of_Z b) = (a <? b)%Z.
Proof.
  unfold lt, of_Z, Qc_ltb. rewrite Qc_compare_inject_Z.
  unfold Z.ltb. reflexivity.
Qed.

Lemma le_of_Z (a b : Z) : le (of_Z a) (of_Z b) = (a <=? b)%Z.
Proof.
  unfold le, of_Z, Qc_leb. rewrite Qc_compare_inject_Z.
  unfold Z.leb. reflexivity.
Qed.

Lemma of_nat_nonzero (k : nat) :
  Qc_eqb (Q2Qc (inject_Z (Z.of_nat (S k)))) 0 = false.
Proof.
  unfold Qc_eqb. change 0%Qc with (Q2Qc (inject_Z 0)).
  rewrite Qc_compare_inject_Z.
  destruct (Z.compare_spec (Z.of_nat (S k)) 0); try reflexivity; lia.
Qed.

Lemma of_nat_positive (k : nat) :
  Qc_ltb 0 (Q2Qc (inject_Z (Z.of_nat (S k)))) = true.
Proof.
  unfold Qc_ltb. change 0%Qc with (Q2Qc (inject_Z 0)).
  rewrite Qc_compare_inject_Z.
  destruct (Z.compare_spec 0 (Z.of_nat (S k))); try reflexivity; lia.
Qed.

Lemma of_Z_integer (z : Z) : Number_isInteger (of_Z z) = true.
Proof.
  unfold Number_isInteger, of_Z. now rewrite this_Q2Qc_inject_Z.
Qed.

Lemma Qnum_of_Z (z : Z) : Qnum (Q2Qc (inject_Z z)) = z.
Proof. now rewrite this_Q2Qc_inject_Z. Qed.

(* ================================================================== *)
(** ** Powers with a whole number of years as exponent                 *)
(* ================================================================== *)

Lemma mul_1_r (x : num) : x * 1 = x.
Proof.
  destruct x; try reflexivity.
  simpl. now rewrite Qcmult_1_r.
Qed.

Lemma pow_nat_Fin (b : Qc) (t : nat) : pow_nat (Fin b) t = Fin (b ^ t)%Qc.
Proof.
  induction t as [|k IH]; [reflexivity|].
  simpl. now rewrite IH.
Qed.

Lemma pow_nat_PInf (k : nat) : pow_nat PInf (S k) = PInf.
Proof.
  induction k as [|k IH]; [reflexivity|].
  change (pow_nat PInf (S (S k))) with (PInf * pow_nat PInf (S k)).
  now rewrite IH.
Qed.

Lemma pow_nat_NInf (k : nat) :
  pow_nat NInf (S k) = if Z.odd (Z.of_nat (S k)) then NInf else PInf.
Proof.
  induction k as [|k IH]; [reflexivity|].
  change (pow_nat NInf (S (S k))) with (NInf * pow_nat NInf (S k)).
  rewrite IH.
  replace (Z.of_nat (S (S k))) with (Z.succ (Z.of_nat (S k))) by lia.
  rewrite Z.odd_succ, <- Z.negb_odd.
  destruct (Z.odd (Z.of_nat (S k))); reflexivity.
Qed.

Lemma pow_int_of_nat (b : Qc) (t : nat) : pow_int b (Z.of_nat t) = (b ^ t)%Qc.
Proof.
  unfold pow_int.
  destruct (Z.ltb_spec (Z.of_nat t) 0); [lia|].
  now rewrite Nat2Z.id.
Qed.

(** [Math.pow(x, year)] for a loop counter [year] is the product of [year]
    factors [x], whatever [x] is and whatever the oracle. *)
Lemma Math_pow_of_nat {o : PowOracle} (x : num) (t : nat) :
  Math_pow x (of_nat t) = pow_nat x t.
Proof.
  destruct t as [|k]; [reflexivity|].
  unfold Math_pow, of_nat, of_Z.
  rewrite of_nat_nonzero, of_nat_positive.
  change (Number_isInteger (Fin (Q2Qc (inject_Z (Z.of_nat (S k))))))
    with (Number_isInteger (of_Z (Z.of_nat (S k)))).
  rewrite of_Z_integer, Qnum_of_Z.
  destruct x as [b| | |].
  - rewrite pow_nat_Fin, pow_int_of_nat.
    destruct (Qc_eqb b 0) eqn:E; [|reflexivity].
    apply Qc_eqb_eq in E. subst b.
    rewrite Qcpower_0 by discriminate. reflexivity.
  - now rewrite pow_nat_PInf.
  - now rewrite pow_nat_NInf.
  - reflexivity.
Qed.

(* ================================================================== *)
(** ** Precious metal                                                  *)
(* ================================================================== *)

Lemma metal_year {o : PowOracle} (params : PreciousMetal.PreciousMetalParams)
      (years t : nat) :
  (1 <= t <= years)%nat ->
  at_year (PreciousMetal.computePreciousMetalValues params years) t
  = Some (metal_out params t []).
Proof.
  intros Ht. unfold at_year, PreciousMetal.computePreciousMetalValues.
  rewrite (@loop_values_year _ _ (fun vs => vs) _ (metal_pushes params)
             years _ (PreciousMetal.initialInvestment params) t eq_refl Ht).
  reflexivity.
Qed.

(** C7. The precious-metal value at index 0 is [initialInvestment], whatever
    the transaction fee; for every year [t >= 1] it is
    [initialInvestment * (1 + annualPriceIncrease)^t * (1 - transactionFeePercent)]. *)
Theorem precious_metal_values :
  forall (o : PowOracle) (params : PreciousMetal.PreciousMetalParams) (years : nat),
    at_year (PreciousMetal.computePreciousMetalValues params years) 0
    = Some (PreciousMetal.initialInvestment params)
    /\ (forall fee : num,
           at_year (PreciousMetal.computePreciousMetalValues
                      (set_transactionFeePercent fee params) years) 0
           = at_year (PreciousMetal.computePreciousMetalValues params years) 0)
    /\ (forall t : nat, (1 <= t <= years)%nat ->
           at_year (PreciousMetal.computePreciousMetalValues params years) t
           = Some (PreciousMetal.initialInvestment params
                   * pow_nat (1 + PreciousMetal.annualPriceIncrease params) t
                   * (1 - PreciousMetal.transactionFeePercent params))).
Proof.
  intros o params years.
  assert (first : forall p,
             at_year (PreciousMetal.computePreciousMetalValues p years) 0
             = Some (PreciousMetal.initialInvestment p)).
  { intros p.
    apply (@loop_values_first _ _ (fun vs => vs) _ (metal_pushes p)). reflexivity. }
  split; [apply first|]. split.
  - intros fee. now rewrite !first.
  - intros t Ht. rewrite (metal_year params Ht).
    unfold metal_out. now rewrite Math_pow_of_nat.
Qed.

Lemma precious_metal_values_witness :
  at_year (PreciousMetal.computePreciousMetalValues (o := no_fractional_pow)
             precious_metal_base 3) 2
  = Some (PreciousMetal.initialInvestment precious_metal_base
          * pow_nat (1 + PreciousMetal.annualPriceIncrease precious_metal_base) 2
          * (1 - PreciousMetal.transactionFeePercent precious_metal_base)).
Proof.
  apply (precious_metal_values no_fractional_pow precious_metal_base 3).
  lia.
Defined.

(* ================================================================== *)
(** ** Fixed income                                                    *)
(* ================================================================== *)

Lemma fixed_year {o : PowOracle} (params : FixedIncome.FixedIncomeParams)
      (years t : nat) :
  (1 <= t <= years)%nat ->
  at_year (FixedIncome.computeFixedIncomeValues params years) t
  = Some (FixedIncome.year_value params t).
Proof.
  intros Ht. unfold at_year, FixedIncome.computeFixedIncomeValues.
  now rewrite (@loop_values_year _ _ (fun vs => vs) _ (fixed_pushes params)
                 years _ (FixedIncome.principal params) t eq_refl Ht).
Qed.

Lemma fixed_first {o : PowOracle} (params : FixedIncome.FixedIncomeParams)
      (years : nat) :
  at_year (FixedIncome.computeFixedIncomeValues params years) 0
  = Some (FixedIncome.principal params).
Proof.
  apply (@loop_values_first _ _ (fun vs => vs) _ (fixed_pushes params)).
  reflexivity.
Qed.

(** [Math.min(x, y)] is [y] as soon as [y <= x]. *)
Lemma Math_min_r (x y : num) : le y x = true -> Math_min x y = y.
Proof.
  destruct x as [a| | |], y as [b| | |]; simpl; try discriminate; try reflexivity.
  intros L. apply Qc_leb_le in L.
  destruct (Qc_ltb b a) eqn:E; [reflexivity|].
  apply Qc_ltb_ge in E. f_equal. now apply Qcle_antisym.
Qed.

Lemma le_of_Z_of_nat (z : Z) (t : nat) :
  (z <= Z.of_nat t)%Z -> le (of_Z z) (of_nat t) = true.
Proof.
  intros L. unfold of_nat. rewrite le_of_Z. now apply Z.leb_le.
Qed.

(** C6. With annual compounding and reinvestment at maturity the value of
    year [t] is [principal * (1 + annualYield)^t] at every year of every
    horizon, and the output does not depend on [maturityYears]. *)
Theorem fixed_income_annual_reinvested :
  forall (o : PowOracle) (params : FixedIncome.FixedIncomeParams) (years : nat),
    FixedIncome.compoundingMethod params = FixedIncome.annual ->
    FixedIncome.reinvestAtMaturity params = true ->
    (forall t : nat, (t <= years)%nat ->
        at_year (FixedIncome.computeFixedIncomeValues params years) t
        = Some (FixedIncome.principal params
                * pow_nat (1 + FixedIncome.annualYield params) t))
    /\ (forall maturity : num,
           FixedIncome.computeFixedIncomeValues (set_maturityYears maturity params) years
           = FixedIncome.computeFixedIncomeValues params years).
Proof.
  intros o params years Hm Hr. split.
  - intros [|k] Ht.
    + rewrite fixed_first. simpl. now rewrite mul_1_r.
    + rewrite fixed_year by lia.
      unfold FixedIncome.year_value. rewrite Hm, Hr.
      now rewrite Math_pow_of_nat.
  - intros maturity.
    unfold FixedIncome.computeFixedIncomeValues.
    rewrite !(@loop_values _ _ (fun vs => vs) _ (fixed_pushes _)).
    f_equal. apply map_ext. intros t.
    unfold FixedIncome.year_value. simpl. now rewrite Hm, Hr.
Qed.

Lemma fixed_income_annual_reinvested_witness :
  at_year (FixedIncome.computeFixedIncomeValues (o := no_fractional_pow)
             (fixed_income_base FixedIncome.annual true (of_Z 5)) 10) 7
  = Some (of_Z 10000 * pow_nat (1 + lit 5 100) 7)
  /\ FixedIncome.computeFixedIncomeValues (o := no_fractional_pow)
       (set_maturityYears (of_Z 2) (fixed_income_base FixedIncome.annual true (of_Z 5))) 10
     = FixedIncome.computeFixedIncomeValues (o := no_fractional_pow)
         (fixed_income_base FixedIncome.annual true (of_Z 5)) 10.
Proof.
  destruct (fixed_income_annual_reinvested no_fractional_pow
              (fixed_income_base FixedIncome.annual true (of_Z 5)) 10
              eq_refl eq_refl) as [Hvalue Hindep].
  split.
  - apply Hvalue. lia.
  - apply Hindep.
Defined.

(** C5. With simple interest and no reinvestment the value of year [t >= 1]
    is [principal * (1 + annualYield * min(t, maturityYears))]; from maturity
    on it stays at [principal * (1 + annualYield * maturityYears)]; with
    principal 10000, yield 0.05 and maturity 3 it is 11500 for every year
    [t >= 3]. *)
Theorem fixed_income_simple_flatlines :
  forall (o : PowOracle) (params : FixedIncome.FixedIncomeParams) (years t : nat),
    FixedIncome.compoundingMethod params = FixedIncome.simple ->
    FixedIncome.reinvestAtMaturity params = false ->
    (1 <= t <= years)%nat ->
    at_year (FixedIncome.computeFixedIncomeValues params years) t
    = Some (FixedIncome.principal params
            * (1 + FixedIncome.annualYield params
                   * Math_min (of_nat t) (FixedIncome.maturityYears params)))
    /\ (le (FixedIncome.maturityYears params) (of_nat t) = true ->
        at_year (FixedIncome.computeFixedIncomeValues params years) t
        = Some (FixedIncome.principal params
                * (1 + FixedIncome.annualYield params
                       * FixedIncome.maturityYears params)))
    /\ (FixedIncome.principal params = of_Z 10000 ->
        FixedIncome.annualYield params = lit 5 100 ->
        FixedIncome.maturityYears params = of_Z 3 ->
        (3 <= t)%nat ->
        at_year (FixedIncome.computeFixedIncomeValues params years) t
        = Some (of_Z 11500)).
Proof.
  intros o params years t Hm Hr Ht.
  assert (E : at_year (FixedIncome.computeFixedIncomeValues params years) t
              = Some (FixedIncome.principal params
                      * (1 + FixedIncome.annualYield params
                             * Math_min (of_nat t) (FixedIncome.maturityYears params)))).
  { rewrite fixed_year by exact Ht.
    unfold FixedIncome.year_value. now rewrite Hm, Hr. }
  split; [exact E|]. split.
  - intros L. rewrite E. now rewrite Math_min_r.
  - intros Hp Hy Hmat H3. rewrite E, Hp, Hy, Hmat.
    rewrite Math_min_r by (apply le_of_Z_of_nat; lia).
    f_equal. apply num_eqb_eq. reflexivity.
Qed.

Lemma fixed_income_simple_flatlines_witness :
  at_year (FixedIncome.computeFixedIncomeValues (o := no_fractional_pow)
             (fixed_income_base FixedIncome.simple false (of_Z 3)) 6) 5
  = Some (of_Z 11500).
Proof.
  apply (fixed_income_simple_flatlines no_fractional_pow
           (fixed_income_base FixedIncome.simple false (of_Z 3)) (years := 6) (t := 5)
           eq_refl eq_refl); try reflexivity; lia.
Defined.

(* ================================================================== *)
(** ** Finite numbers                                                  *)
(* ================================================================== *)

Lemma is_finite_Fin (x : num) : is_finite x = true -> exists q, x = Fin q.
Proof. destruct x; try discriminate. intros _. now eexists. Qed.

Lemma finite_add (x y : num) :
  is_finite x = true -> is_finite y = true -> is_finite (x + y) = true.
Proof. now destruct x, y. Qed.

Lemma finite_sub (x y : num) :
  is_finite x = true -> is_finite y = true -> is_finite (x - y) = true.
Proof. now destruct x, y. Qed.

Lemma finite_mul (x y : num) :
  is_finite x = true -> is_finite y = true -> is_finite (x * y) = true.
Proof. now destruct x, y. Qed.

Lemma finite_div (x y : num) :
  is_finite x = true -> is_finite y = true -> strict_eq y 0 = false ->
  is_finite (x / y) = true.
Proof.
  destruct x, y; try discriminate. simpl. intros _ _ E. now rewrite E.
Qed.

Lemma finite_of_Z (z : Z) : is_finite (of_Z z) = true.
Proof. reflexivity. Qed.

Lemma finite_pow_nat (x : num) (t : nat) :
  is_finite x = true -> is_finite (pow_nat x t) = true.
Proof.
  intros F. destruct (is_finite_Fin _ F) as [b ->]. now rewrite pow_nat_Fin.
Qed.

Create HintDb finite.
#[local] Hint Resolve finite_add finite_sub finite_mul finite_of_Z finite_pow_nat : finite.

(** Multiplying and dividing by the same non-zero finite number. *)
Lemma mul_div_cancel (x k : num) :
  is_finite x = true -> is_finite k = true -> strict_eq k 0 = false ->
  (x * k) / k = x.
Proof.
  destruct x as [a| | |], k as [b| | |]; try discriminate.
  simpl. intros _ _ E. rewrite E. apply Qc_eqb_neq in E.
  f_equal. now field.
Qed.

(* ================================================================== *)
(** ** Securities                                                      *)
(* ================================================================== *)

Lemma security_run_S (params : Security.SecurityParams) (n : nat) :
  Security.run params (S n) = Security.year_body params (S n) (Security.run params n).
Proof. apply for_loop_S. Qed.

Lemma security_year (params : Security.SecurityParams) (years t : nat) :
  (1 <= t <= years)%nat ->
  at_year (Security.computeSecurityValues params years) t
  = Some (security_out params t (Security.run params (pred t))).
Proof.
  intros Ht.
  apply (@loop_values_year _ _ _ _ (security_pushes params) years
           (Security.initial_state params) _ t eq_refl Ht).
Qed.

Lemma finite_security_fields (params : Security.SecurityParams) :
  finite_security params = true ->
  is_finite (Security.initialInvestment params) = true
  /\ is_finite (Security.annualReturn params) = true
  /\ is_finite (Security.expenseRatio params) = true
  /\ is_finite (Security.oneTimeFee params) = true
  /\ is_finite (Security.dividendYield params) = true.
Proof.
  unfold finite_security. intros H.
  repeat (apply andb_prop in H as [H ?]). auto.
Qed.

Lemma finite_compoundedPrincipal (params : Security.SecurityParams) (t : nat) :
  finite_security params = true ->
  is_finite (compoundedPrincipal params t) = true.
Proof.
  intros F. destruct (finite_security_fields _ F) as (Fi & Fa & Fe & Ff & Fd).
  induction t as [|k IH]; cbn [compoundedPrincipal]; auto 6 with finite.
Qed.

(** Outside the rate [annualReturn - expenseRatio = -1] the loop's two
    variables are the two tracks of the specification. *)
Lemma security_tracks (params : Security.SecurityParams) (n : nat) :
  finite_security params = true ->
  Security.reinvestDividends params = false ->
  strict_eq (1 + Security.netGrowthRate params) 0 = false ->
  Security.compoundedValue (Security.run params n) = compoundedPrincipal params n
  /\ Security.accumulatedDividends (Security.run params n)
     = cumulativeDividendCash params n.
Proof.
  intros F R NZ.
  destruct (finite_security_fields _ F) as (Fi & Fa & Fe & Ff & Fd).
  assert (G : Security.netGrowthRate params
              = Security.annualReturn params - Security.expenseRatio params).
  { unfold Security.netGrowthRate. now rewrite R. }
  induction n as [|k [IHc IHa]]; [split; reflexivity|].
  rewrite security_run_S. unfold Security.year_body.
  cbn [Security.compoundedValue Security.accumulatedDividends
       compoundedPrincipal cumulativeDividendCash].
  rewrite R. cbn [negb]. rewrite IHc, IHa. split.
  - now rewrite G.
  - rewrite mul_div_cancel.
    + reflexivity.
    + now apply finite_compoundedPrincipal.
    + rewrite G. auto with finite.
    + exact NZ.
Qed.

(** The part of C4 that the code does deliver: when dividends are not
    reinvested and [annualReturn - expenseRatio] is not [-1], the value of
    year [t] is the compounded principal of year [t] plus the dividend cash
    accumulated through year [t]. *)
Lemma security_cash_dividends_value (params : Security.SecurityParams)
      (years t : nat) :
  finite_security params = true ->
  Security.reinvestDividends params = false ->
  strict_eq (1 + Security.netGrowthRate params) 0 = false ->
  (t <= years)%nat ->
  at_year (Security.computeSecurityValues params years) t
  = Some (compoundedPrincipal params t + cumulativeDividendCash params t).
Proof.
  intros F R NZ Ht. destruct t as [|k].
  - destruct (finite_security_fields _ F) as (Fi & Fa & Fe & Ff & Fd).
    unfold at_year, Security.computeSecurityValues, Security.run.
    rewrite (@loop_values_first _ _ _ _ (security_pushes params) years
               (Security.initial_state params) _ eq_refl).
    cbn [compoundedPrincipal cumulativeDividendCash].
    unfold Security.startingValue.
    destruct (Security.initialInvestment params), (Security.oneTimeFee params);
      try discriminate.
    cbn. f_equal. f_equal. ring.
  - rewrite security_year by lia. simpl pred.
    unfold security_out. rewrite <- security_run_S.
    destruct (security_tracks params (S k) F R NZ) as [-> ->]. reflexivity.
Qed.

(** C4, at the input where it fails.  The record passes validation; the claim
    places [0 + 0.02 * 10000 = 200] at year 1 (the principal is wiped out,
    the dividend on the prior balance is paid); the code divides the new
    balance [0] by [1 + netGrowthRate = 0] to recover the prior balance and
    returns [NaN]. *)
Theorem security_dividend_on_total_loss :
  Validation.validateSecurityParams security_total_loss = []
  /\ compoundedPrincipal security_total_loss 1
     + cumulativeDividendCash security_total_loss 1 = of_Z 200
  /\ Security.computeSecurityValues security_total_loss 1 = [of_Z 10000; NaN].
Proof.
  split; [reflexivity|]. split.
  - apply num_eqb_eq. reflexivity.
  - apply nums_eqb_eq. reflexivity.
Qed.

(* ================================================================== *)
(** ** Bounds, whole numbers and remainders                           *)
(* ================================================================== *)

Lemma finite_Math_min (x y : num) :
  is_finite x = true -> is_finite y = true -> is_finite (Math_min x y) = true.
Proof.
  destruct x, y; try discriminate. intros _ _.
  unfold Math_min. now destruct (lt (Fin q0) (Fin q)).
Qed.

Lemma finite_Math_max (x y : num) :
  is_finite x = true -> is_finite y = true -> is_finite (Math_max x y) = true.
Proof.
  destruct x, y; try discriminate. intros _ _.
  unfold Math_max. now destruct (lt (Fin q) (Fin q0)).
Qed.

#[local] Hint Resolve finite_Math_min finite_Math_max : finite.

(** A finite integral number is the image of its numerator. *)
Lemma integer_of_Z (q : Qc) :
  Number_isInteger (Fin q) = true -> Fin q = of_Z (Qnum q).
Proof.
  unfold Number_isInteger, of_Z. intros E. apply Pos.eqb_eq in E.
  f_equal. apply Qc_is_canon. rewrite this_Q2Qc_inject_Z.
  destruct q as [[n d] c]. simpl in *. subst d. reflexivity.
Qed.

Lemma positive_integer_of_nat (x : num) :
  Number_isInteger x = true -> lt 0 x = true -> exists k, x = of_nat (S k).
Proof.
  destruct x as [q| | |]; try discriminate.
  intros I L. rewrite (integer_of_Z _ I) in L |- *.
  change 0 with (of_Z 0) in L. rewrite lt_of_Z in L. apply Z.ltb_lt in L.
  exists (Z.to_nat (Z.pred (Qnum q))). unfold of_nat. f_equal. lia.
Qed.

Lemma finite_rem (x y : num) :
  is_finite x = true -> is_finite y = true -> strict_eq y 0 = false ->
  is_finite (rem x y) = true.
Proof.
  destruct x, y; try discriminate. cbn. intros _ _ E. now rewrite E.
Qed.

(* ================================================================== *)
(** ** Rental property: years within the duration                     *)
(* ================================================================== *)

(** No year is within a mortgage of duration zero. *)
Lemma no_year_within_zero (year : nat) : le (of_nat (S year)) 0 = false.
Proof.
  change 0 with (of_Z 0). unfold of_nat. rewrite le_of_Z.
  apply Z.leb_gt. lia.
Qed.

(* ================================================================== *)
(** ** Rental property: one year of the loop                           *)
(* ================================================================== *)

Lemma rental_run_S {o : PowOracle} (params : Rental.RentalPropertyParams) (n : nat) :
  Rental.run params (S n) = Rental.year_body params (S n) (Rental.run params n).
Proof. apply for_loop_S. Qed.

Lemma rental_body_propertyValue {o : PowOracle} params year st :
  Rental.propertyValue (Rental.year_body params year st)
  = Rental.propertyValue st * (1 + Rental.annualAppreciation params).
Proof.
  unfold Rental.year_body. now destruct (Rental.pays_mortgage params year).
Qed.

Lemma rental_body_remainingMortgage {o : PowOracle} params year st :
  Rental.remainingMortgage (Rental.year_body params year st)
  = if Rental.pays_mortgage params year
    then Math_max
           (Rental.remainingMortgage st
            - Math_min (Rental.annualMortgagePayment params
                        - Rental.remainingMortgage st * Rental.mortgageRate params)
                       (Rental.remainingMortgage st)) 0
    else Rental.remainingMortgage st.
Proof.
  unfold Rental.year_body. now destruct (Rental.pays_mortgage params year).
Qed.

Lemma rental_body_cumulativeCashFlow {o : PowOracle} params year st :
  Rental.cumulativeCashFlow (Rental.year_body params year st)
  = Rental.cumulativeCashFlow st
    + (Rental.propertyValue (Rental.year_body params year st)
       * ToNumber (Rental.monthlyRentalPercent params) * of_Z 12
       * (1 - Rental.vacancyRate params)
       - (if Rental.pays_mortgage params year
          then Rental.annualMortgagePayment params else 0)
       - (Rental.propertyValue (Rental.year_body params year st)
          * Rental.maintenanceCostPercent params
          + Rental.propertyValue (Rental.year_body params year st)
            * ToNumber (Rental.annualInsuranceCostPercent params)
          + Rental.propertyValue (Rental.year_body params year st)
            * Rental.propertyTaxRate params)).
Proof.
  unfold Rental.year_body. now destruct (Rental.pays_mortgage params year).
Qed.

Lemma rental_year {o : PowOracle} (params : Rental.RentalPropertyParams)
      (years t : nat) :
  (1 <= t <= years)%nat ->
  at_year (Rental.computeRentalValues params years) t
  = Some (rental_out params t (Rental.run params (pred t))).
Proof.
  intros Ht.
  apply (@loop_values_year _ _ _ _ (rental_pushes params) years
           (Rental.initial_state params) _ t eq_refl Ht).
Qed.

(* ================================================================== *)
(** ** Rental property: the mortgage schedule                          *)
(* ================================================================== *)

Lemma rental_balance_scheduled {o : PowOracle} (params : Rental.RentalPropertyParams)
      (t : nat) :
  Rental.remainingMortgage (Rental.run params t) = scheduled_balance params t.
Proof.
  induction t as [|k IH]; [reflexivity|].
  rewrite rental_run_S, rental_body_remainingMortgage, IH. reflexivity.
Qed.

(** Once a year is past the duration, so is every later year. *)
Lemma past_duration_mono (duration : num) (a b : nat) :
  le (of_nat a) duration = false -> (a <= b)%nat ->
  le (of_nat b) duration = false.
Proof.
  intros Ha Hab. destruct duration as [d| | |]; try reflexivity; try discriminate.
  cbn in Ha |- *. apply Qc_leb_gt in Ha. apply Qc_leb_gt.
  apply Qclt_le_trans with (Q2Qc (inject_Z (Z.of_nat a))); [exact Ha|].
  apply Qc_leb_le.
  change (le (of_Z (Z.of_nat a)) (of_Z (Z.of_nat b)) = true).
  rewrite le_of_Z. apply Z.leb_le. lia.
Qed.

Lemma scheduled_balance_frozen {o : PowOracle} (params : Rental.RentalPropertyParams)
      (n k : nat) :
  le (of_nat (S n)) (Rental.mortgageDuration params) = false ->
  scheduled_balance params (n + k) = scheduled_balance params n.
Proof.
  intros Past. induction k as [|k IH].
  - now rewrite Nat.add_0_r.
  - rewrite Nat.add_succ_r. cbn [scheduled_balance].
    rewrite (past_duration_mono _ (b := S (n + k)) Past) by lia.
    cbn [andb]. exact IH.
Qed.

(** C2, as stated, fails.  The record passes validation (12% over one year);
    year 2 is past the duration, and the balance left by the loop is not 0:
    the payment is twelve monthly instalments, the interest is charged on the
    balance of the whole year, so the single payment does not clear it. *)
Lemma rental_balance_after_duration_not_zero :
  Validation.validateRentalParams (rental_plain (lit 12 100) (of_Z 1)) = []
  /\ le (of_nat 2) (Rental.mortgageDuration (rental_plain (lit 12 100) (of_Z 1))) = false
  /\ lt 0 (Rental.remainingMortgage
             (Rental.run (o := no_fractional_pow)
                         (rental_plain (lit 12 100) (of_Z 1)) 2)) = true.
Proof.
  split; [reflexivity|]. split; [reflexivity|]. vm_compute. reflexivity.
Qed.

(** The guard tests the original mortgage amount, not the balance: with the
    (out of range) rate [-100%] over two years the first payment clears the
    balance, and the second year is charged all the same. *)
Lemma rental_payment_charged_on_cleared_balance :
  Rental.remainingMortgage
    (Rental.run (o := no_fractional_pow) (rental_plain (of_Z (-1)) (of_Z 2)) 1) = 0
  /\ Rental.pays_mortgage (rental_plain (of_Z (-1)) (of_Z 2)) 2 = true
  /\ lt (Rental.cumulativeCashFlow
           (Rental.run (o := no_fractional_pow) (rental_plain (of_Z (-1)) (of_Z 2)) 2))
        (Rental.cumulativeCashFlow
           (Rental.run (o := no_fractional_pow) (rental_plain (of_Z (-1)) (of_Z 2)) 1))
     = true.
Proof.
  split; [apply num_eqb_eq; vm_compute; reflexivity|].
  split; [reflexivity|]. vm_compute. reflexivity.
Qed.

(** C2, amended.  The balance the loop carries is the schedule: in a year
    within [mortgageDuration], when the mortgage amount
    [purchasePrice - downPayment] is positive, the payment is the annual
    payment, interest is [remainingBalance * mortgageRate], principal paid is
    [min(annualPayment - interest, remainingBalance)] and the balance becomes
    [max(remainingBalance - principalPaid, 0)]; in any other year the payment
    is 0 and the balance is unchanged.  The payment of the year is what the
    cash flow is charged.  Past the duration the payment is 0 and the balance
    keeps the value it had, whatever that is. *)
Theorem rental_mortgage_schedule :
  forall (o : PowOracle) (params : Rental.RentalPropertyParams) (n : nat),
    Rental.remainingMortgage (Rental.run params n) = scheduled_balance params n
    /\ Rental.cumulativeCashFlow (Rental.run params (S n))
       = Rental.cumulativeCashFlow (Rental.run params n)
         + (Rental.propertyValue (Rental.run params (S n))
            * ToNumber (Rental.monthlyRentalPercent params) * of_Z 12
            * (1 - Rental.vacancyRate params)
            - scheduled_payment params (S n)
            - (Rental.propertyValue (Rental.run params (S n))
               * Rental.maintenanceCostPercent params
               + Rental.propertyValue (Rental.run params (S n))
                 * ToNumber (Rental.annualInsuranceCostPercent params)
               + Rental.propertyValue (Rental.run params (S n))
                 * Rental.propertyTaxRate params))
    /\ (le (of_nat (S n)) (Rental.mortgageDuration params) = false ->
        forall k : nat,
          scheduled_payment params (S n + k) = 0
          /\ Rental.remainingMortgage (Rental.run params (n + k))
             = Rental.remainingMortgage (Rental.run params n)).
Proof.
  intros o params n. split; [apply rental_balance_scheduled|]. split.
  - rewrite rental_run_S. apply rental_body_cumulativeCashFlow.
  - intros Past k. split.
    + unfold scheduled_payment.
      now rewrite (past_duration_mono _ (b := S n + k) Past) by lia.
    + rewrite !rental_balance_scheduled. now apply scheduled_balance_frozen.
Qed.

Lemma rental_mortgage_schedule_witness :
  scheduled_payment (o := no_fractional_pow) (rental_plain (lit 12 100) (of_Z 1)) (2 + 3) = 0
  /\ Rental.remainingMortgage
       (Rental.run (o := no_fractional_pow) (rental_plain (lit 12 100) (of_Z 1)) (1 + 3))
     = Rental.remainingMortgage
         (Rental.run (o := no_fractional_pow) (rental_plain (lit 12 100) (of_Z 1)) 1).
Proof.
  apply (rental_mortgage_schedule no_fractional_pow
           (rental_plain (lit 12 100) (of_Z 1)) 1).
  reflexivity.
Defined.

(* ================================================================== *)
(** ** Rental property without appreciation, interest or rent          *)
(* ================================================================== *)

Ltac qc_to_q :=
  unfold Qcle, Qclt, Qcminus, Qcdiv, Qcplus, Qcmult, Qcopp, Qcinv, Q2Qc in *;
  cbn [this] in *; rewrite ?Qred_correct in *.

Lemma twelve_nonzero : Q2Qc (inject_Z 12) <> 0%Qc.
Proof. apply Qc_eqb_neq. reflexivity. Qed.

(** Straight-line repayment: within the duration [d], the payments made so
    far and the one due add up to no more than the amount [P]. *)
Lemma straight_line_fits (P d : Qc) (n : nat) :
  (0 < P)%Qc -> (Q2Qc (inject_Z (Z.of_nat (S n))) <= d)%Qc ->
  d <> 0%Qc /\ (Q2Qc (inject_Z (Z.of_nat (S n))) * (P / d) <= P)%Qc.
Proof.
  intros HP Hd.
  assert (Hpos : (0 < d)%Qc).
  { apply Qclt_le_trans with (Q2Qc (inject_Z (Z.of_nat (S n)))); [|exact Hd].
    apply Qc_ltb_lt. apply of_nat_positive. }
  assert (Hnz : d <> 0%Qc).
  { intros E. subst d. revert Hpos. apply Qcle_not_lt, Qcle_refl. }
  split; [exact Hnz|].
  assert (HA : (0 <= P / d)%Qc).
  { unfold Qcdiv. rewrite <- (Qcmult_0_l (/ d)).
    apply Qcmult_le_compat_r; [now apply Qclt_le_weak|].
    qc_to_q. apply Qinv_le_0_compat. now apply Qlt_le_weak. }
  replace P with (d * (P / d))%Qc at 2 by (field; exact Hnz).
  now apply Qcmult_le_compat_r.
Qed.

Lemma sub_0_r (x : num) : x - 0 = x.
Proof.
  destruct x as [q| | |]; try reflexivity.
  cbn [sub add neg]. f_equal. ring.
Qed.

Section RentalWithoutFlows.
Context {o : PowOracle} (params : Rental.RentalPropertyParams).
Context (price down d v : Qc).
Hypothesis Hprice : Rental.purchasePrice params = Fin price.
Hypothesis Hdown : Rental.downPayment params = Fin down.
Hypothesis Hduration : Rental.mortgageDuration params = Fin d.
Hypothesis Hvacancy : Rental.vacancyRate params = Fin v.
Hypothesis Hflows : rental_without_flows params.

Local Abbreviation N n := (Q2Qc (inject_Z (Z.of_nat n))).

Lemma flat_mortgageAmount : Rental.mortgageAmount params = Fin (price - down).
Proof. unfold Rental.mortgageAmount. now rewrite Hprice, Hdown. Qed.

Lemma flat_pays_mortgage (year : nat) :
  Rental.pays_mortgage params year = true ->
  (N year <= d)%Qc /\ (0 < price - down)%Qc.
Proof.
  unfold Rental.pays_mortgage, gt. rewrite flat_mortgageAmount, Hduration.
  intros G. apply andb_prop in G as [G1 G2].
  split; [now apply Qc_leb_le | now apply Qc_ltb_lt].
Qed.

Lemma flat_annual_payment (n : nat) :
  Rental.pays_mortgage params (S n) = true ->
  Rental.annualMortgagePayment params = Fin ((price - down) / d).
Proof.
  intros G. destruct (flat_pays_mortgage _ G) as [Hd HP].
  destruct (@straight_line_fits _ _ n HP Hd) as [Hnz _].
  destruct Hflows as (_ & Hrate & _).
  unfold Rental.annualMortgagePayment.
  rewrite flat_mortgageAmount, Hrate, Hduration.
  replace (le (Fin (price - down)) 0) with false.
  2:{ symmetry. apply Qc_leb_gt. exact HP. }
  change (strict_eq 0 0) with true. cbv iota.
  assert (Hnz12 : (d * Q2Qc (inject_Z 12))%Qc <> 0%Qc).
  { intros E. apply Qcmult_integral in E as [E | E];
      [now apply Hnz | now apply twelve_nonzero]. }
  unfold of_Z, mul, div. apply Qc_eqb_neq in Hnz12. rewrite Hnz12.
  f_equal. field. split; [exact Hnz | exact twelve_nonzero].
Qed.

Lemma flat_payment (n : nat) :
  exists p : Qc,
    (if Rental.pays_mortgage params (S n)
     then Rental.annualMortgagePayment params else 0) = Fin p
    /\ scheduled_payment params (S n) = Fin p.
Proof.
  unfold scheduled_payment.
  change (le (of_nat (S n)) (Rental.mortgageDuration params)
          && gt (Rental.purchasePrice params - Rental.downPayment params) 0)
    with (Rental.pays_mortgage params (S n)).
  destruct (Rental.pays_mortgage params (S n)) eqn:G.
  - exists ((price - down) / d)%Qc. now rewrite (flat_annual_payment n G).
  - now exists 0%Qc.
Qed.

Lemma flat_cash_finite (n : nat) : exists c : Qc, cash_after_payments params n = Fin c.
Proof.
  induction n as [|n [c IH]]; [now exists 0%Qc|].
  destruct (flat_payment n) as (p & _ & Ep).
  exists (c - p)%Qc. cbn [cash_after_payments]. now rewrite IH, Ep.
Qed.

(** The loop state after [n] years: the property is worth the purchase
    price, and the cash flow is minus the payments charged. *)
Lemma flat_state_run (n : nat) :
  Rental.propertyValue (Rental.run params n) = Fin price
  /\ Rental.cumulativeCashFlow (Rental.run params n) = cash_after_payments params n.
Proof.
  destruct Hflows as (Happ & Hrate & Hrent & Hmaint & Hins & Htax & Hsell).
  induction n as [|n (Hpv & Hcum)].
  - split; [exact Hprice | reflexivity].
  - rewrite rental_run_S.
    assert (Hpv' : Rental.propertyValue
                     (Rental.year_body params (S n) (Rental.run params n))
                   = Fin price).
    { rewrite rental_body_propertyValue, Hpv, Happ.
      cbn [add mul]. f_equal. ring. }
    split; [exact Hpv'|].
    destruct (flat_payment n) as (p & Epay & Ep).
    destruct (flat_cash_finite n) as (c & Ec).
    rewrite rental_body_cumulativeCashFlow, Hpv', Epay, Hcum,
      Hrent, Hmaint, Hins, Htax, Hvacancy.
    cbn [cash_after_payments]. rewrite Ec, Ep.
    unfold of_Z. cbn [add sub mul neg]. f_equal. ring.
Qed.

Lemma flat_value (years k : nat) :
  (S k <= years)%nat ->
  at_year (Rental.computeRentalValues params years) (S k)
  = Some ((Rental.purchasePrice params - scheduled_balance params (S k))
          + cash_after_payments params (S k)).
Proof.
  intros Ht. rewrite rental_year by lia. cbn [pred].
  unfold rental_out. cbv zeta. rewrite <- rental_run_S.
  destruct (flat_state_run (S k)) as (Hpv & Hcum).
  destruct Hflows as (_ & _ & _ & _ & _ & _ & Hsell).
  rewrite Hpv, Hcum, Hsell, rental_balance_scheduled, Hprice.
  replace (Fin price * 0) with 0 by (cbn [mul]; f_equal; ring).
  now rewrite sub_0_r.
Qed.

Lemma flat_value_unchanged (k : nat) :
  Rental.pays_mortgage params (S (S k)) = false ->
  (Rental.purchasePrice params - scheduled_balance params (S (S k)))
  + cash_after_payments params (S (S k))
  = (Rental.purchasePrice params - scheduled_balance params (S k))
    + cash_after_payments params (S k).
Proof.
  intros G.
  assert (Eb : scheduled_balance params (S (S k)) = scheduled_balance params (S k)).
  { change (scheduled_balance params (S (S k)))
      with (if Rental.pays_mortgage params (S (S k))
            then Math_max
                   (scheduled_balance params (S k)
                    - Math_min (Rental.annualMortgagePayment params
                                - scheduled_balance params (S k)
                                  * Rental.mortgageRate params)
                               (scheduled_balance params (S k))) 0
            else scheduled_balance params (S k)).
    now rewrite G. }
  assert (Ec : cash_after_payments params (S (S k))
               = cash_after_payments params (S k)).
  { change (cash_after_payments params (S (S k)))
      with (cash_after_payments params (S k)
            - (if Rental.pays_mortgage params (S (S k))
               then Rental.annualMortgagePayment params else 0)).
    rewrite G. apply sub_0_r. }
  now rewrite Eb, Ec.
Qed.
End RentalWithoutFlows.




(* ================================================================== *)
(** ** Validators                                                      *)
(* ================================================================== *)

Lemma fields_push_if (cond : bool) (e : Validation.ValidationError)
      (errors : list Validation.ValidationError) :
  map Validation.field (Validation.push_if cond e errors)
  = map Validation.field errors ++ violated_fields [(Validation.field e, cond)].
Proof.
  unfold Validation.push_if, violated_fields.
  destruct cond; cbn [filter snd map fst].
  - now rewrite map_app.
  - now rewrite app_nil_r.
Qed.

Lemma violated_fields_none (bounds : list (string * bool)) :
  violated_fields bounds = [] <-> forall b, In b bounds -> snd b = false.
Proof.
  unfold violated_fields. induction bounds as [|[f c] bounds IH].
  - split; [intros _ b [] | reflexivity].
  - cbn [filter snd]. destruct c.
    + split; [discriminate|]. intros H.
      specialize (H (f, true) (or_introl eq_refl)). discriminate H.
    + rewrite IH. split.
      * intros H b [<- | Hb]; [reflexivity | now apply H].
      * intros H b Hb. apply H. now right.
Qed.

Lemma violated_fields_in (bounds : list (string * bool)) (f : string) :
  In (f, true) bounds -> In f (violated_fields bounds).
Proof.
  intros H. unfold violated_fields.
  apply (in_map fst _ (f, true)). apply filter_In. now split.
Qed.

(** One entry per violated bound is enough for the other two properties. *)
Lemma reports_of_fields (errors : list Validation.ValidationError)
      (bounds : list (string * bool)) :
  map Validation.field errors = violated_fields bounds -> reports errors bounds.
Proof.
  intros E. split; [exact E|]. split.
  - rewrite <- violated_fields_none, <- E. split.
    + now intros ->.
    + now intros H%map_eq_nil.
  - intros f Hf. apply violated_fields_in in Hf. rewrite <- E in Hf.
    apply in_map_iff in Hf as (e & He & Hin). now exists e.
Qed.

Lemma violated_fields_app (l1 l2 : list (string * bool)) :
  violated_fields (l1 ++ l2) = violated_fields l1 ++ violated_fields l2.
Proof. unfold violated_fields. now rewrite filter_app, map_app. Qed.

(** Each validator pushes, bound after bound, the entry of every bound that
    is violated. *)
Ltac validator_fields :=
  cbv zeta; rewrite !fields_push_if;
  change (map Validation.field []) with (violated_fields []);
  rewrite <- !violated_fields_app; reflexivity.

Lemma security_validator_fields (params : Security.SecurityParams) :
  map Validation.field (Validation.validateSecurityParams params)
  = violated_fields (security_bounds params).
Proof. unfold Validation.validateSecurityParams. validator_fields. Qed.

Lemma rental_validator_fields (params : Rental.RentalPropertyParams) :
  map Validation.field (Validation.validateRentalParams params)
  = violated_fields (rental_bounds params).
Proof. unfold Validation.validateRentalParams. validator_fields. Qed.

Lemma precious_metal_validator_fields (params : PreciousMetal.PreciousMetalParams) :
  map Validation.field (Validation.validatePreciousMetalParams params)
  = violated_fields (precious_metal_bounds params).
Proof. unfold Validation.validatePreciousMetalParams. validator_fields. Qed.

Lemma fixed_income_validator_fields (params : FixedIncome.FixedIncomeParams) :
  map Validation.field (Validation.validateFixedIncomeParams params)
  = violated_fields (fixed_income_bounds params).
Proof. unfold Validation.validateFixedIncomeParams. validator_fields. Qed.

(** C8, as stated, fails for the value-relative rental record: its default
    record is accepted, [monthlyRentalPercent] is documented as [>= 0], and
    with [monthlyRentalPercent = -1] the validator still returns the empty
    list. *)
Lemma rental_negative_percent_not_reported :
  Validation.validateRentalParams DEFAULT_RENTAL_PARAMS = []
  /\ lt (ToNumber (Rental.monthlyRentalPercent
                     (set_percent_fields (Some (of_Z (-1)))
                        (Rental.annualInsuranceCostPercent DEFAULT_RENTAL_PARAMS)
                        DEFAULT_RENTAL_PARAMS))) 0 = true
  /\ Validation.validateRentalParams
       (set_percent_fields (Some (of_Z (-1)))
          (Rental.annualInsuranceCostPercent DEFAULT_RENTAL_PARAMS)
          DEFAULT_RENTAL_PARAMS) = [].
Proof. repeat split. Qed.

(** C8, amended.  Each validator is a total function that returns one entry
    per violated bound of its record, in order, each naming the field of its
    bound: the list is empty exactly when no bound is violated, and a record
    with a field outside its range gets an entry that names the field.  The
    bounds of the rental validator are those of the fixed-amount variant
    ([monthlyRentalIncome], [insuranceCost]); [monthlyRentalPercent] and
    [annualInsuranceCostPercent] are not among them.  The base records of the
    tests are accepted. *)
Theorem validators_report_every_violated_bound :
  (forall params : Security.SecurityParams,
      reports (Validation.validateSecurityParams params) (security_bounds params))
  /\ (forall params : Rental.RentalPropertyParams,
      reports (Validation.validateRentalParams params) (rental_bounds params))
  /\ (forall params : PreciousMetal.PreciousMetalParams,
      reports (Validation.validatePreciousMetalParams params)
              (precious_metal_bounds params))
  /\ (forall params : FixedIncome.FixedIncomeParams,
      reports (Validation.validateFixedIncomeParams params)
              (fixed_income_bounds params))
  /\ Validation.validateSecurityParams security_base = []
  /\ Validation.validateRentalParams rental_base = []
  /\ Validation.validatePreciousMetalParams precious_metal_base = []
  /\ Validation.validateFixedIncomeParams
       (fixed_income_base FixedIncome.annual false (of_Z 5)) = [].
Proof.
  split; [intros p; apply reports_of_fields, security_validator_fields|].
  split; [intros p; apply reports_of_fields, rental_validator_fields|].
  split; [intros p; apply reports_of_fields, precious_metal_validator_fields|].
  split; [intros p; apply reports_of_fields, fixed_income_validator_fields|].
  repeat split.
Qed.

Lemma validators_report_every_violated_bound_witness :
  exists e : Validation.ValidationError,
    In e (Validation.validateSecurityParams security_expense_over)
    /\ Validation.field e = "expenseRatio".
Proof.
  destruct validators_report_every_violated_bound as (Hsecurity & _).
  destruct (Hsecurity security_expense_over) as (_ & _ & Hfield).
  apply Hfield. cbn. tauto.
Defined.

(* ================================================================== *)
(** ** The rental validator and the value-relative fields              *)
(* ================================================================== *)

Lemma num_eqb_refl (x : num) : num_eqb x x = true.
Proof. destruct x; try reflexivity. apply Qc_eqb_refl. Qed.

Lemma nums_eqb_refl (xs : list num) : nums_eqb xs xs = true.
Proof.
  induction xs as [|x xs IH]; [reflexivity|].
  cbn [nums_eqb]. now rewrite num_eqb_refl, IH.
Qed.

Lemma nums_eqb_neq (xs ys : list num) : nums_eqb xs ys = false -> xs <> ys.
Proof. intros E ->. rewrite nums_eqb_refl in E. discriminate. Qed.

(** C10. The error list of the rental validator does not depend on
    [monthlyRentalPercent] and [annualInsuranceCostPercent]: records that
    differ in these two fields only get the same list, and when the bounds
    the validator checks hold the list is empty whatever the two fields are,
    negative values included; yet the projection reads both fields. *)
Theorem rental_validator_ignores_percent_fields :
  (forall (params : Rental.RentalPropertyParams) (rent insurance : option num),
      Validation.validateRentalParams (set_percent_fields rent insurance params)
      = Validation.validateRentalParams params)
  /\ (forall (params : Rental.RentalPropertyParams) (rent insurance : option num),
      (forall b, In b (rental_bounds params) -> snd b = false) ->
      Validation.validateRentalParams (set_percent_fields rent insurance params) = [])
  /\ Validation.validateRentalParams
       (set_percent_fields (Some (of_Z (-1))) (Some (of_Z (-1))) DEFAULT_RENTAL_PARAMS)
     = []
  /\ Rental.computeRentalValues (o := no_fractional_pow)
       (set_percent_fields (Some (of_Z (-1))) (Some 0) (rental_plain 0 (of_Z 30))) 1
     <> Rental.computeRentalValues (o := no_fractional_pow)
          (rental_plain 0 (of_Z 30)) 1
  /\ Rental.computeRentalValues (o := no_fractional_pow)
       (set_percent_fields (Some 0) (Some (of_Z (-1))) (rental_plain 0 (of_Z 30))) 1
     <> Rental.computeRentalValues (o := no_fractional_pow)
          (rental_plain 0 (of_Z 30)) 1.
Proof.
  split; [reflexivity|]. split.
  - intros params rent insurance Hbounds.
    change (Validation.validateRentalParams params = []).
    destruct (@reports_of_fields _ _ (rental_validator_fields params)) as (_ & Hempty & _).
    now apply Hempty.
  - split; [reflexivity|].
    split; apply nums_eqb_neq; vm_compute; reflexivity.
Qed.

Lemma rental_validator_ignores_percent_fields_witness :
  Validation.validateRentalParams
    (set_percent_fields (Some (of_Z (-5))) (Some (of_Z (-7))) rental_base) = [].
Proof.
  destruct rental_validator_ignores_percent_fields as (_ & Hempty & _).
  apply Hempty. cbn [rental_bounds rental_base].
  intros b Hb. cbn in Hb.
  repeat (destruct Hb as [<- | Hb]; [reflexivity|]). destruct Hb.
Defined.

(* ================================================================== *)
(** ** Divisions by zero                                              *)
(* ================================================================== *)

Lemma mul_NaN_r (x : num) : x * NaN = NaN.
Proof. now destruct x. Qed.

Lemma add_NaN_r (x : num) : x + NaN = NaN.
Proof. now destruct x. Qed.

(** With simple interest, reinvestment and a maturity of zero years, every
    projected year is [year % 0 = NaN], under every oracle. *)
Lemma fixed_income_zero_maturity_year {o : PowOracle}
      (params : FixedIncome.FixedIncomeParams) (year : nat) :
  FixedIncome.compoundingMethod params = FixedIncome.simple ->
  FixedIncome.reinvestAtMaturity params = true ->
  FixedIncome.maturityYears params = 0 ->
  FixedIncome.year_value params year = NaN.
Proof.
  intros Hm Hr Hz. unfold FixedIncome.year_value. rewrite Hm, Hr, Hz.
  cbv zeta. change (rem (of_nat year) 0) with NaN.
  now rewrite mul_NaN_r, add_NaN_r, mul_NaN_r.
Qed.


Lemma rental_accepted_terms (params : Rental.RentalPropertyParams) :
  Validation.validateRentalParams params = [] ->
  lt (Rental.mortgageRate params) 0 = false
  /\ le (Rental.mortgageDuration params) 0 = false
  /\ Number_isInteger (Rental.mortgageDuration params) = true.
Proof.
  intros Hvalid.
  destruct (@reports_of_fields _ _ (rental_validator_fields params))
    as (_ & Hempty & _).
  assert (Hb := proj1 Hempty Hvalid). clear Hempty.
  split; [|split].
  - apply (Hb ("mortgageRate", lt (Rental.mortgageRate params) 0)). cbn. tauto.
  - apply (Hb ("mortgageDuration", le (Rental.mortgageDuration params) 0)).
    cbn. tauto.
  - apply negb_false_iff.
    apply (Hb ("mortgageDuration",
               negb (Number_isInteger (Rental.mortgageDuration params)))).
    cbn. tauto.
Qed.

Lemma fixed_income_accepted_maturity (params : FixedIncome.FixedIncomeParams) :
  Validation.validateFixedIncomeParams params = [] ->
  le (FixedIncome.maturityYears params) 0 = false
  /\ Number_isInteger (FixedIncome.maturityYears params) = true.
Proof.
  intros Hvalid.
  destruct (@reports_of_fields _ _ (fixed_income_validator_fields params))
    as (_ & Hempty & _).
  assert (Hb := proj1 Hempty Hvalid). clear Hempty.
  split.
  - apply (Hb ("maturityYears", le (FixedIncome.maturityYears params) 0)).
    cbn. tauto.
  - apply negb_false_iff.
    apply (Hb ("maturityYears",
               negb (Number_isInteger (FixedIncome.maturityYears params)))).
    cbn. tauto.
Qed.

(** A whole number that is not [<= 0] is positive, and so is the number of
    months of that many years. *)
Lemma positive_whole (x : num) :
  le x 0 = false -> Number_isInteger x = true ->
  lt 0 x = true /\ lt 0 (x * of_Z 12) = true.
Proof.
  destruct x as [q| | |]; try discriminate. intros Hpos _.
  apply Qc_leb_gt in Hpos. split; [now apply Qc_ltb_lt|].
  unfold of_Z. cbn [mul]. apply Qc_ltb_lt.
  rewrite <- (Qcmult_0_l (Q2Qc (inject_Z 12))).
  apply Qcmult_lt_compat_r; [reflexivity | exact Hpos].
Qed.

(** A year the loop charges lies within the duration, so the term has
    months. *)
Lemma charged_year_has_months (params : Rental.RentalPropertyParams) (year : nat) :
  Rental.pays_mortgage params (S year) = true ->
  gt (Rental.mortgageAmount params) 0 = true
  /\ lt 0 (Rental.mortgageDuration params * of_Z 12) = true.
Proof.
  unfold Rental.pays_mortgage. intros G. apply andb_prop in G as [Hd Ha].
  split; [exact Ha|].
  destruct (Rental.mortgageDuration params) as [d| | |]; try discriminate Hd.
  - unfold of_nat, of_Z in *. cbn [le mul lt] in *.
    apply Qc_leb_le in Hd. apply Qc_ltb_lt.
    rewrite <- (Qcmult_0_l (Q2Qc (inject_Z 12))).
    apply Qcmult_lt_compat_r; [reflexivity|].
    apply Qclt_le_trans with (Q2Qc (inject_Z (Z.of_nat (S year)))); [|exact Hd].
    apply Qc_ltb_lt, of_nat_positive.
  - reflexivity.
Qed.

(** With a term of zero months no year charges the payment, so the rate,
    which the loop reads in the mortgage block only, has no part in the
    values. *)
Lemma zero_month_term_ignores_rate {o : PowOracle}
      (params : Rental.RentalPropertyParams) (rate rate' : num) (years : nat) :
  Rental.computeRentalValues (set_mortgage_terms rate 0 params) years
  = Rental.computeRentalValues (set_mortgage_terms rate' 0 params) years.
Proof.
  assert (never : forall r year,
             Rental.pays_mortgage (set_mortgage_terms r 0 params) (S year) = false).
  { intros r year. unfold Rental.pays_mortgage.
    cbn [set_mortgage_terms Rental.mortgageDuration].
    now rewrite no_year_within_zero. }
  unfold Rental.computeRentalValues, Rental.run. f_equal.
  induction years as [|n IH]; [reflexivity|].
  rewrite !for_loop_S, IH.
  unfold Rental.year_body. rewrite !never. reflexivity.
Qed.



(* ================================================================== *)
(** ** Securities with reinvested dividends                           *)
(* ================================================================== *)

Lemma Qc_eq_Qeq (x y : Qc) : x = y -> (x == y)%Q.
Proof. now intros ->. Qed.

(** Rational order and equality goals, moved to [Q] for [lra] and [nra]. *)
Ltac qc_order :=
  repeat match goal with
  | H : (_ < _)%Qc |- _ => unfold Qclt in H
  | H : (_ <= _)%Qc |- _ => unfold Qcle in H
  | H : @eq Qc _ _ |- _ => apply Qc_eq_Qeq in H
  end;
  try apply Qc_is_canon;
  unfold Qclt, Qcle, Qcminus, Qcdiv, Qcplus, Qcmult, Qcopp, Qcinv, Q2Qc in *;
  cbn [this] in *; rewrite ?Qred_correct in *.

Lemma add_0_r (x : num) : x + 0 = x.
Proof.
  destruct x as [q| | |]; try reflexivity.
  cbn [add]. f_equal. ring.
Qed.

(** With reinvested dividends no cash is set aside, and the value pushed
    for a year is the compounded value of that year. *)
Lemma security_reinvested_state (params : Security.SecurityParams) (n : nat) :
  Security.reinvestDividends params = true ->
  Security.accumulatedDividends (Security.run params n) = 0.
Proof.
  intros R. induction n as [|n IH]; [reflexivity|].
  rewrite security_run_S. unfold Security.year_body.
  cbn [Security.accumulatedDividends]. now rewrite R.
Qed.

Lemma security_reinvested_value (params : Security.SecurityParams) (years t : nat) :
  Security.reinvestDividends params = true ->
  (t <= years)%nat ->
  at_year (Security.computeSecurityValues params years) t
  = Some (Security.compoundedValue (Security.run params t)).
Proof.
  intros R Ht. destruct t as [|k].
  - unfold at_year, Security.computeSecurityValues, Security.run.
    now rewrite (@loop_values_first _ _ _ _ (security_pushes params) years
                   (Security.initial_state params) _ eq_refl).
  - rewrite security_year by lia. cbn [pred].
    unfold security_out. rewrite <- security_run_S.
    now rewrite (security_reinvested_state params (S k) R), add_0_r.
Qed.

(** X1. With reinvested dividends the values form a geometric sequence: the
    value of each year is the value of the year before times
    [1 + (annualReturn - expenseRatio + dividendYield)], starting from
    [initialInvestment - oneTimeFee]. *)
Theorem security_reinvested_grows_by_factor :
  forall (params : Security.SecurityParams) (years t : nat),
    Security.reinvestDividends params = true ->
    (t < years)%nat ->
    exists v : num,
      at_year (Security.computeSecurityValues params years) t = Some v
      /\ at_year (Security.computeSecurityValues params years) (S t)
         = Some (v * (1 + (Security.annualReturn params
                           - Security.expenseRatio params
                           + Security.dividendYield params))).
Proof.
  intros params years t R Ht.
  exists (Security.compoundedValue (Security.run params t)).
  split; [apply security_reinvested_value; [exact R | lia]|].
  rewrite security_reinvested_value by (exact R || lia).
  rewrite security_run_S. unfold Security.year_body.
  cbn [Security.compoundedValue].
  unfold Security.netGrowthRate. now rewrite R.
Qed.

Lemma security_reinvested_grows_by_factor_witness :
  exists v : num,
    at_year (Security.computeSecurityValues security_base 3) 2 = Some v
    /\ at_year (Security.computeSecurityValues security_base 3) 3
       = Some (v * (1 + (lit 1 10 - 0 + 0))).
Proof.
  apply (@security_reinvested_grows_by_factor security_base 3 2);
    [reflexivity | lia].
Defined.

Lemma le_Fin (a b : Qc) : le (Fin a) (Fin b) = true <-> (a <= b)%Qc.
Proof. apply Qc_leb_le. Qed.

Lemma lt_Fin (a b : Qc) : lt (Fin a) (Fin b) = true <-> (a < b)%Qc.
Proof. apply Qc_ltb_lt. Qed.

(* ================================================================== *)
(** ** Fixed income: whole cycles, flat lines, equal regimes           *)
(* ================================================================== *)

(** Quotient, floor and remainder of year counts are the integer ones. *)
Lemma Qfloor_div_inject_Z (a b : Z) :
  Qfloor (Q2Qc (inject_Z a) / Q2Qc (inject_Z b))%Qc = (a / b)%Z.
Proof.
  rewrite Zdiv_Qdiv. apply Qfloor_comp.
  unfold Qcdiv, Qcmult, Qcinv, Q2Qc. cbn [this].
  now rewrite !Qred_correct.
Qed.

Lemma floor_div_of_nat (t m : nat) :
  (1 <= m)%nat -> Math_floor (of_nat t / of_nat m) = of_nat (t / m).
Proof.
  intros Hm. destruct m as [|k]; [lia|].
  unfold of_nat at 1 2, of_Z, div. rewrite of_nat_nonzero.
  unfold Math_floor, of_nat. f_equal.
  now rewrite Qfloor_div_inject_Z, Nat2Z.inj_div.
Qed.

Lemma rem_of_nat (t m : nat) :
  (1 <= m)%nat -> rem (of_nat t) (of_nat m) = of_nat (t mod m).
Proof.
  intros Hm. destruct m as [|k]; [lia|].
  unfold of_nat at 1 2, of_Z, rem. rewrite of_nat_nonzero.
  unfold Qc_trunc.
  replace (Qc_ltb (Q2Qc (inject_Z (Z.of_nat t)) / Q2Qc (inject_Z (Z.of_nat (S k)))) 0)%Qc
    with false.
  2:{ symmetry. apply Qc_ltb_ge.
      unfold Qcle, Qcdiv, Qcmult, Qcinv, Q2Qc. cbn [this]. rewrite !Qred_correct.
      apply Qmult_le_0_compat.
      - unfold Qle. simpl. lia.
      - apply Qinv_le_0_compat. unfold Qle. simpl. lia. }
  rewrite Qfloor_div_inject_Z. unfold of_nat, of_Z. f_equal.
  apply Qc_is_canon.
  unfold Qcminus, Qcplus, Qcopp, Qcmult, Q2Qc. cbn [this]. rewrite !Qred_correct.
  rewrite Nat2Z.inj_mod.
  rewrite (Z.mod_eq (Z.of_nat t) (Z.of_nat (S k))) by lia.
  unfold Qeq, Qplus, Qopp, Qmult, inject_Z. simpl. lia.
Qed.

Lemma Math_min_of_Z (a b : Z) : Math_min (of_Z a) (of_Z b) = of_Z (Z.min a b).
Proof.
  change (Math_min (of_Z a) (of_Z b))
    with (if lt (of_Z b) (of_Z a) then of_Z b else of_Z a).
  rewrite lt_of_Z.
  destruct (Z.ltb_spec b a).
  - now rewrite Z.min_r by lia.
  - now rewrite Z.min_l by lia.
Qed.

Lemma Math_min_of_nat (a b : nat) :
  Math_min (of_nat a) (of_nat b) = of_nat (Nat.min a b).
Proof. unfold of_nat. now rewrite Math_min_of_Z, Nat2Z.inj_min. Qed.

(** X3. With simple interest reinvested at a maturity of [m >= 1] whole
    years, the value of year [t] is the principal grown by [1 + yield * m]
    for each of the [t div m] completed cycles and by simple interest over
    the [t mod m] years of the running cycle. *)
Theorem fixed_income_simple_reinvested_cycles :
  forall (o : PowOracle) (params : FixedIncome.FixedIncomeParams) (m years t : nat),
    FixedIncome.compoundingMethod params = FixedIncome.simple ->
    FixedIncome.reinvestAtMaturity params = true ->
    FixedIncome.maturityYears params = of_nat m ->
    (1 <= m)%nat ->
    (1 <= t <= years)%nat ->
    at_year (FixedIncome.computeFixedIncomeValues params years) t
    = Some (FixedIncome.principal params
            * pow_nat (1 + FixedIncome.annualYield params * of_nat m) (t / m)
            * (1 + FixedIncome.annualYield params * of_nat (t mod m))).
Proof.
  intros o params m years t Hmethod Hreinvest Hmaturity Hm Ht.
  rewrite fixed_year by exact Ht.
  unfold FixedIncome.year_value. rewrite Hmethod, Hreinvest, Hmaturity.
  cbv zeta. now rewrite floor_div_of_nat, rem_of_nat, Math_pow_of_nat.
Qed.

Lemma fixed_income_simple_reinvested_cycles_witness :
  at_year (FixedIncome.computeFixedIncomeValues (o := no_fractional_pow)
             (fixed_income_base FixedIncome.simple true (of_Z 5)) 10) 7
  = Some (of_Z 10000 * pow_nat (1 + lit 5 100 * of_nat 5) (7 / 5)
          * (1 + lit 5 100 * of_nat (7 mod 5))).
Proof.
  apply (@fixed_income_simple_reinvested_cycles no_fractional_pow
           (fixed_income_base FixedIncome.simple true (of_Z 5)) 5 10 7);
    try reflexivity; lia.
Defined.

(** X4. With annual compounding and no reinvestment, at a maturity of [m]
    whole years, the value of year [t] is [principal * (1 + yield)^min(t, m)]:
    it stays at the maturity value from year [m] on. *)
Theorem fixed_income_annual_flatlines :
  forall (o : PowOracle) (params : FixedIncome.FixedIncomeParams) (m years t : nat),
    FixedIncome.compoundingMethod params = FixedIncome.annual ->
    FixedIncome.reinvestAtMaturity params = false ->
    FixedIncome.maturityYears params = of_nat m ->
    (1 <= t <= years)%nat ->
    at_year (FixedIncome.computeFixedIncomeValues params years) t
    = Some (FixedIncome.principal params
            * pow_nat (1 + FixedIncome.annualYield params) (Nat.min t m))
    /\ ((m <= t)%nat ->
        at_year (FixedIncome.computeFixedIncomeValues params years) t
        = Some (FixedIncome.principal params
                * pow_nat (1 + FixedIncome.annualYield params) m)).
Proof.
  intros o params m years t Hmethod Hreinvest Hmaturity Ht.
  assert (E : at_year (FixedIncome.computeFixedIncomeValues params years) t
              = Some (FixedIncome.principal params
                      * pow_nat (1 + FixedIncome.annualYield params) (Nat.min t m))).
  { rewrite fixed_year by exact Ht.
    unfold FixedIncome.year_value. rewrite Hmethod, Hreinvest, Hmaturity.
    cbv zeta. now rewrite Math_min_of_nat, Math_pow_of_nat. }
  split; [exact E|]. intros Hpast. rewrite E. now rewrite Nat.min_r.
Qed.

Lemma fixed_income_annual_flatlines_witness :
  at_year (FixedIncome.computeFixedIncomeValues (o := no_fractional_pow)
             (fixed_income_base FixedIncome.annual false (of_Z 3)) 6) 5
  = Some (of_Z 10000 * pow_nat (1 + lit 5 100) 3).
Proof.
  apply (@fixed_income_annual_flatlines no_fractional_pow
           (fixed_income_base FixedIncome.annual false (of_Z 3)) 3 6 5);
    try reflexivity; lia.
Defined.

Lemma one_plus_zero_times (x : num) : is_finite x = true -> 1 + 0 * x = 1.
Proof.
  destruct x as [q| | |]; try discriminate. intros _.
  change (Fin (1 + 0 * q) = Fin 1). apply f_equal. ring.
Qed.

(** [Math.pow(1, e) = 1] for every finite exponent. *)
Lemma Math_pow_one {o : PowOracle} (e : num) :
  is_finite e = true -> Math_pow 1 e = 1.
Proof.
  destruct e as [e| | |]; try discriminate. intros _.
  unfold Math_pow. destruct (Qc_eqb e 0); [reflexivity|].
  change (Qc_eqb 1 0) with false. cbv iota.
  destruct (Number_isInteger (Fin e)); [|reflexivity].
  f_equal. unfold pow_int.
  destruct (Qnum e <? 0)%Z; rewrite Qcpower_1.
  - now apply Qc_is_canon.
  - reflexivity.
Qed.

Lemma finite_Math_floor (x : num) : is_finite x = true -> is_finite (Math_floor x) = true.
Proof. now destruct x. Qed.

(** X5. With a yield of zero and a finite maturity of at least one year,
    every regime returns the principal at every year. *)
Theorem fixed_income_zero_yield_is_flat :
  forall (o : PowOracle) (params : FixedIncome.FixedIncomeParams) (years t : nat),
    FixedIncome.annualYield params = 0 ->
    is_finite (FixedIncome.maturityYears params) = true ->
    le 1 (FixedIncome.maturityYears params) = true ->
    (t <= years)%nat ->
    at_year (FixedIncome.computeFixedIncomeValues params years) t
    = Some (FixedIncome.principal params).
Proof.
  intros o params years t Hyield Fm Hone Ht.
  assert (Hm : strict_eq (FixedIncome.maturityYears params) 0 = false).
  { destruct (FixedIncome.maturityYears params) as [m| | |]; try discriminate.
    apply le_Fin in Hone. apply Qc_eqb_neq. intros E. subst m.
    revert Hone. now apply Qclt_not_le. }
  destruct t as [|k]; [apply fixed_first|].
  rewrite fixed_year by lia. f_equal.
  unfold FixedIncome.year_value. rewrite Hyield.
  assert (Fyear : is_finite (of_nat (S k)) = true) by reflexivity.
  destruct (FixedIncome.compoundingMethod params),
           (FixedIncome.reinvestAtMaturity params); cbv zeta.
  - rewrite (one_plus_zero_times _ Fm).
    rewrite Math_pow_one
      by (apply finite_Math_floor, finite_div; assumption).
    rewrite one_plus_zero_times by (apply finite_rem; assumption).
    now rewrite !mul_1_r.
  - rewrite one_plus_zero_times by (apply finite_Math_min; assumption).
    now rewrite mul_1_r.
  - change (1 + 0) with 1. rewrite Math_pow_one by exact Fyear.
    now rewrite mul_1_r.
  - change (1 + 0) with 1.
    rewrite Math_pow_one by (apply finite_Math_min; assumption).
    now rewrite mul_1_r.
Qed.

Lemma fixed_income_zero_yield_is_flat_witness :
  at_year (FixedIncome.computeFixedIncomeValues (o := no_fractional_pow)
             (set_maturityYears (lit 5 2)
                {| FixedIncome.name := "Test CD";
                   FixedIncome.principal := of_Z 10000;
                   FixedIncome.annualYield := 0;
                   FixedIncome.maturityYears := of_Z 5;
                   FixedIncome.compoundingMethod := FixedIncome.simple;
                   FixedIncome.reinvestAtMaturity := true;
                   FixedIncome.timeHorizon := of_Z 10 |}) 5) 4
  = Some (of_Z 10000).
Proof.
  apply (@fixed_income_zero_yield_is_flat no_fractional_pow
           (set_maturityYears (lit 5 2)
              {| FixedIncome.name := "Test CD";
                 FixedIncome.principal := of_Z 10000;
                 FixedIncome.annualYield := 0;
                 FixedIncome.maturityYears := of_Z 5;
                 FixedIncome.compoundingMethod := FixedIncome.simple;
                 FixedIncome.reinvestAtMaturity := true;
                 FixedIncome.timeHorizon := of_Z 10 |}) 5 4);
    try reflexivity; lia.
Defined.

(** X6. At a maturity of one year, simple interest with reinvestment is
    annual compounding: the two regimes return the same sequence. *)
Theorem fixed_income_yearly_rollover_compounds :
  forall (o : PowOracle) (params : FixedIncome.FixedIncomeParams) (years : nat),
    is_finite (FixedIncome.principal params) = true ->
    is_finite (FixedIncome.annualYield params) = true ->
    FixedIncome.maturityYears params = of_nat 1 ->
    FixedIncome.computeFixedIncomeValues
      (set_compounding FixedIncome.simple true params) years
    = FixedIncome.computeFixedIncomeValues
        (set_compounding FixedIncome.annual true params) years.
Proof.
  intros o params years Fp Fy Hm.
  destruct (is_finite_Fin _ Fp) as [p Ep], (is_finite_Fin _ Fy) as [y Ey].
  unfold FixedIncome.computeFixedIncomeValues.
  rewrite !(@loop_values _ _ (fun vs => vs) _ (fixed_pushes _)).
  f_equal. apply map_ext. intros t.
  unfold FixedIncome.year_value.
  cbn [set_compounding FixedIncome.compoundingMethod FixedIncome.reinvestAtMaturity
       FixedIncome.principal FixedIncome.annualYield FixedIncome.maturityYears].
  rewrite Hm, Ep, Ey. cbv zeta.
  rewrite floor_div_of_nat, rem_of_nat, !Math_pow_of_nat by lia.
  rewrite Nat.div_1_r, Nat.mod_1_r.
  change (Fin y * of_nat 1) with (Fin (y * 1)).
  change (Fin y * of_nat 0) with (Fin (y * 0)).
  change (1 + Fin (y * 1)) with (Fin (1 + y * 1)).
  change (1 + Fin (y * 0)) with (Fin (1 + y * 0)).
  change (1 + Fin y) with (Fin (1 + y)).
  rewrite !pow_nat_Fin. cbn [mul].
  replace (1 + y * 1)%Qc with (1 + y)%Qc by ring.
  f_equal. ring.
Qed.

Lemma fixed_income_yearly_rollover_compounds_witness :
  FixedIncome.computeFixedIncomeValues (o := no_fractional_pow)
    (set_compounding FixedIncome.simple true
       (fixed_income_base FixedIncome.annual false (of_nat 1))) 3
  = FixedIncome.computeFixedIncomeValues (o := no_fractional_pow)
      (set_compounding FixedIncome.annual true
         (fixed_income_base FixedIncome.annual false (of_nat 1))) 3.
Proof.
  apply (@fixed_income_yearly_rollover_compounds no_fractional_pow
           (fixed_income_base FixedIncome.annual false (of_nat 1)) 3);
    reflexivity.
Defined.

(* ================================================================== *)
(** ** Order up to [NaN]                                               *)
(* ================================================================== *)

(** [lt y x = false] reads "[x] is not above [y]": [x <= y], or one of the
    two is [NaN].  Sums, differences and products by a factor that is not
    negative keep it. *)
Lemma lt_irrefl (x : num) : lt x x = false.
Proof.
  destruct x as [q| | |]; try reflexivity.
  apply Qc_ltb_ge, Qcle_refl.
Qed.

Lemma le_not_lt (x y : num) : le x y = true -> lt y x = false.
Proof.
  destruct x as [a| | |], y as [b| | |]; try discriminate; try reflexivity.
  intros H. apply le_Fin in H. now apply Qc_ltb_ge.
Qed.

Lemma not_negative_cases (x : num) :
  lt x 0 = false ->
  x = NaN \/ x = PInf \/ exists q : Qc, x = Fin q /\ (0 <= q)%Qc.
Proof.
  destruct x as [q| | |]; try discriminate; auto.
  intros H. right. right. exists q. split; [reflexivity|]. now apply Qc_ltb_ge.
Qed.

Lemma sgn_positive (q : Qc) : (0 < q)%Qc -> sgn q = Gt.
Proof. intros H. unfold sgn. now apply Qcgt_alt. Qed.

Lemma sgn_negative (q : Qc) : (q < 0)%Qc -> sgn q = Lt.
Proof. intros H. unfold sgn. now apply Qclt_alt. Qed.

Lemma sgn_zero : sgn 0 = Eq.
Proof. reflexivity. Qed.

Lemma Qc_sign_cases (q : Qc) : (q < 0)%Qc \/ q = 0%Qc \/ (0 < q)%Qc.
Proof.
  destruct (Qc_dec q 0) as [[H | H] | H]; auto.
Qed.

Lemma mul_not_negative (x y : num) :
  lt x 0 = false -> lt y 0 = false -> lt (x * y) 0 = false.
Proof.
  intros Hx Hy.
  destruct (not_negative_cases _ Hx) as [-> | [-> | (a & -> & Ha)]];
    destruct (not_negative_cases _ Hy) as [-> | [-> | (b & -> & Hb)]];
    try reflexivity.
  - cbn [mul]. destruct (Qc_sign_cases b) as [H | [-> | H]].
    + exfalso. revert Hb. now apply Qclt_not_le.
    + reflexivity.
    + now rewrite (sgn_positive H).
  - cbn [mul]. destruct (Qc_sign_cases a) as [H | [-> | H]].
    + exfalso. revert Ha. now apply Qclt_not_le.
    + reflexivity.
    + now rewrite (sgn_positive H).
  - cbn [mul lt]. apply Qc_ltb_ge. clear - Ha Hb. qc_order. nra.
Qed.

Lemma one_plus_not_negative (x : num) :
  lt x (of_Z (-1)) = false -> lt (1 + x) 0 = false.
Proof.
  destruct x as [q| | |]; try discriminate; try reflexivity.
  unfold of_Z. cbn [lt add]. intros H. apply Qc_ltb_ge in H. apply Qc_ltb_ge.
  clear - H. qc_order. unfold inject_Z in H. lra.
Qed.

Lemma one_minus_not_negative (x : num) :
  gt x 1 = false -> lt (1 - x) 0 = false.
Proof.
  unfold gt. destruct x as [q| | |]; try discriminate; try reflexivity.
  cbn [lt sub add neg]. intros H. apply Qc_ltb_ge in H. apply Qc_ltb_ge.
  clear - H. qc_order. lra.
Qed.

Lemma sub_not_negative (x y : num) : lt x y = false -> lt (x - y) 0 = false.
Proof.
  destruct x as [a| | |], y as [b| | |]; try discriminate; try reflexivity.
  cbn [lt sub add neg]. intros H. apply Qc_ltb_ge in H. apply Qc_ltb_ge.
  clear - H. qc_order. lra.
Qed.

Lemma Math_max_not_negative (x : num) : lt (Math_max x 0) 0 = false.
Proof.
  destruct x as [q| | |]; try reflexivity.
  unfold Math_max. cbn [lt]. destruct (Qc_ltb q 0) eqn:E; [reflexivity|].
  cbn [lt]. exact E.
Qed.

Lemma pow_nat_not_negative (x : num) (t : nat) :
  lt x 0 = false -> lt (pow_nat x t) 0 = false.
Proof.
  intros H. induction t as [|t IH]; [reflexivity|].
  cbn [pow_nat]. now apply mul_not_negative.
Qed.

Lemma add_keeps_order (x y c : num) :
  lt y x = false -> lt (y + c) (x + c) = false.
Proof.
  destruct x as [a| | |], y as [b| | |], c as [k| | |];
    try discriminate; try reflexivity.
  cbn [lt add]. intros H. apply Qc_ltb_ge in H. apply Qc_ltb_ge.
  clear - H. qc_order. lra.
Qed.

Lemma sub_reverses_order (e x y : num) :
  lt y x = false -> lt (e - x) (e - y) = false.
Proof.
  destruct x as [a| | |], y as [b| | |], e as [k| | |];
    try discriminate; try reflexivity.
  cbn [lt sub add neg]. intros H. apply Qc_ltb_ge in H. apply Qc_ltb_ge.
  clear - H. qc_order. lra.
Qed.

Lemma mul_keeps_order (p x y : num) :
  lt p 0 = false -> lt y x = false -> lt (p * y) (p * x) = false.
Proof.
  intros Hp H.
  destruct (not_negative_cases _ Hp) as [-> | [-> | (a & -> & Ha)]].
  - reflexivity.
  - destruct x as [u| | |], y as [v| | |]; try discriminate; try reflexivity;
      cbn [mul lt] in *;
      try (destruct (sgn u); reflexivity); try (destruct (sgn v); reflexivity).
    apply Qc_ltb_ge in H.
    destruct (Qc_sign_cases u) as [Hu | [-> | Hu]];
      destruct (Qc_sign_cases v) as [Hv | [-> | Hv]];
      rewrite ?(sgn_positive Hu), ?(sgn_negative Hu), ?(sgn_positive Hv),
        ?(sgn_negative Hv), ?sgn_zero; try reflexivity.
    exfalso. clear - H Hu Hv. qc_order. lra.
  - destruct (Qc_sign_cases a) as [Hn | [-> | Hn]].
    + exfalso. revert Ha. now apply Qclt_not_le.
    + destruct x as [u| | |], y as [v| | |]; try discriminate; try reflexivity;
        cbn [mul lt CompOpp] in *; rewrite ?sgn_zero; reflexivity.
    + destruct x as [u| | |], y as [v| | |]; try discriminate; try reflexivity;
        cbn [mul lt CompOpp] in *; rewrite ?(sgn_positive Hn); try reflexivity.
      apply Qc_ltb_ge in H. apply Qc_ltb_ge. clear - H Hn. qc_order. nra.
Qed.

(* ================================================================== *)
(** ** Rental property: selling cost, and the case without a mortgage  *)
(* ================================================================== *)

(** The selling cost enters the pushed value only: the loop state without
    the sequence does not depend on it. *)
Lemma rental_state_ignores_selling_cost {o : PowOracle}
      (params : Rental.RentalPropertyParams) (cost : num) (n : nat) :
  Rental.propertyValue (Rental.run (set_sellingCostPercent cost params) n)
  = Rental.propertyValue (Rental.run params n)
  /\ Rental.remainingMortgage (Rental.run (set_sellingCostPercent cost params) n)
     = Rental.remainingMortgage (Rental.run params n)
  /\ Rental.cumulativeCashFlow (Rental.run (set_sellingCostPercent cost params) n)
     = Rental.cumulativeCashFlow (Rental.run params n).
Proof.
  induction n as [|n (IHp & IHr & IHc)]; [repeat split|].
  rewrite !rental_run_S.
  assert (Hp : Rental.propertyValue
                 (Rental.year_body (set_sellingCostPercent cost params) (S n)
                    (Rental.run (set_sellingCostPercent cost params) n))
               = Rental.propertyValue
                   (Rental.year_body params (S n) (Rental.run params n))).
  { rewrite !rental_body_propertyValue, IHp. reflexivity. }
  split; [exact Hp|]. split.
  - rewrite !rental_body_remainingMortgage, IHr. reflexivity.
  - rewrite !rental_body_cumulativeCashFlow, Hp, IHc. reflexivity.
Qed.

(** The property value is never negative when neither the price nor the
    growth factor is. *)
Lemma rental_property_value_not_negative {o : PowOracle}
      (params : Rental.RentalPropertyParams) (n : nat) :
  lt (Rental.purchasePrice params) 0 = false ->
  lt (Rental.annualAppreciation params) (of_Z (-1)) = false ->
  lt (Rental.propertyValue (Rental.run params n)) 0 = false.
Proof.
  intros Hprice Happ. induction n as [|n IH]; [exact Hprice|].
  rewrite rental_run_S, rental_body_propertyValue.
  apply mul_not_negative; [exact IH | now apply one_plus_not_negative].
Qed.

(** X7. A higher selling cost never gives a higher value: for a purchase
    price that is not negative, an appreciation that is not below -100%, and
    two selling costs [low <= high] on otherwise the same record, the value
    of no year is higher at [high] than at [low]. *)
Theorem rental_selling_cost_never_raises_value :
  forall (o : PowOracle) (params : Rental.RentalPropertyParams)
         (low high : num) (years t : nat),
    lt (Rental.purchasePrice params) 0 = false ->
    lt (Rental.annualAppreciation params) (of_Z (-1)) = false ->
    le low high = true ->
    (t <= years)%nat ->
    exists v_low v_high : num,
      at_year (Rental.computeRentalValues
                 (set_sellingCostPercent low params) years) t = Some v_low
      /\ at_year (Rental.computeRentalValues
                    (set_sellingCostPercent high params) years) t = Some v_high
      /\ lt v_low v_high = false.
Proof.
  intros o params low high years t Hprice Happ Hcost Ht.
  destruct t as [|k].
  - exists (Rental.downPayment params), (Rental.downPayment params).
    split; [|split; [|apply lt_irrefl]];
      unfold at_year, Rental.computeRentalValues, Rental.run;
      now rewrite (@loop_values_first _ _ _ _ (rental_pushes _) years
                     (Rental.initial_state _) _ eq_refl).
  - assert (Hpv := rental_property_value_not_negative params (S k) Hprice Happ).
    assert (value : forall cost : num,
               at_year (Rental.computeRentalValues
                          (set_sellingCostPercent cost params) years) (S k)
               = Some (Rental.propertyValue (Rental.run params (S k))
                       - Rental.remainingMortgage (Rental.run params (S k))
                       - Rental.propertyValue (Rental.run params (S k)) * cost
                       + Rental.cumulativeCashFlow (Rental.run params (S k)))).
    { intros cost. rewrite rental_year by lia. cbn [pred].
      unfold rental_out. cbv zeta. rewrite <- rental_run_S.
      now destruct (rental_state_ignores_selling_cost params cost (S k))
        as (-> & -> & ->). }
    eexists. eexists. split; [apply value|]. split; [apply value|].
    apply add_keeps_order, sub_reverses_order, mul_keeps_order; [exact Hpv|].
    now apply le_not_lt.
Qed.

Lemma rental_selling_cost_never_raises_value_witness :
  exists v_low v_high : num,
    at_year (Rental.computeRentalValues (o := no_fractional_pow)
               (set_sellingCostPercent 0 (rental_plain 0 (of_Z 30))) 3) 2 = Some v_low
    /\ at_year (Rental.computeRentalValues (o := no_fractional_pow)
                  (set_sellingCostPercent (lit 6 100) (rental_plain 0 (of_Z 30))) 3) 2
       = Some v_high
    /\ lt v_low v_high = false.
Proof.
  apply (@rental_selling_cost_never_raises_value no_fractional_pow
           (rental_plain 0 (of_Z 30)) 0 (lit 6 100) 3 2);
    try reflexivity; lia.
Defined.

(** Without a mortgage no year pays. *)
Lemma no_mortgage_never_pays (params : Rental.RentalPropertyParams) (year : nat) :
  le (Rental.mortgageAmount params) 0 = true ->
  Rental.pays_mortgage params year = false.
Proof.
  intros H. unfold Rental.pays_mortgage, gt.
  destruct (Rental.mortgageAmount params) as [a| | |]; try discriminate.
  - apply le_Fin in H. replace (lt 0 (Fin a)) with false; [apply andb_false_r|].
    symmetry. apply Qc_ltb_ge. exact H.
  - apply andb_false_r.
Qed.

(** X8. When the down payment covers the purchase price
    ([purchasePrice - downPayment <= 0]) no mortgage payment is ever made,
    and the projection does not depend on the mortgage rate or duration. *)
Theorem rental_without_mortgage_ignores_terms :
  forall (o : PowOracle) (params : Rental.RentalPropertyParams)
         (rate duration : num) (years : nat),
    le (Rental.mortgageAmount params) 0 = true ->
    (forall year : nat, scheduled_payment params year = 0)
    /\ Rental.computeRentalValues (set_mortgage_terms rate duration params) years
       = Rental.computeRentalValues params years.
Proof.
  intros o params rate duration years Hnone.
  assert (never : forall p year,
             Rental.mortgageAmount p = Rental.mortgageAmount params ->
             Rental.pays_mortgage p year = false).
  { intros p year E. apply no_mortgage_never_pays. now rewrite E. }
  split.
  - intros year. unfold scheduled_payment.
    change (le (of_nat year) (Rental.mortgageDuration params)
            && gt (Rental.purchasePrice params - Rental.downPayment params) 0)
      with (Rental.pays_mortgage params year).
    now rewrite never.
  - unfold Rental.computeRentalValues, Rental.run. f_equal.
    induction years as [|n IH]; [reflexivity|].
    rewrite !for_loop_S, IH.
    unfold Rental.year_body.
    rewrite !never by reflexivity. reflexivity.
Qed.

Lemma rental_without_mortgage_ignores_terms_witness :
  Rental.computeRentalValues (o := no_fractional_pow)
    (set_mortgage_terms 0 (of_Z 15) rental_paid_in_full) 2
  = Rental.computeRentalValues (o := no_fractional_pow) rental_paid_in_full 2.
Proof.
  apply rental_without_mortgage_ignores_terms. reflexivity.
Defined.

(* ================================================================== *)
(** ** Records the validators accept                                   *)
(* ================================================================== *)

Lemma not_below_zero (x : num) :
  is_finite x = true -> le x 0 = false -> lt 0 x = true.
Proof.
  destruct x as [q| | |]; try discriminate. intros _ H.
  apply lt_Fin. now apply Qc_leb_gt.
Qed.

Lemma precious_metal_accepted_bounds (params : PreciousMetal.PreciousMetalParams) :
  Validation.validatePreciousMetalParams params = [] ->
  lt (PreciousMetal.initialInvestment params) 0 = false
  /\ lt (PreciousMetal.annualPriceIncrease params) (of_Z (-1)) = false
  /\ gt (PreciousMetal.transactionFeePercent params) 1 = false.
Proof.
  intros Hvalid.
  destruct (@reports_of_fields _ _ (precious_metal_validator_fields params))
    as (_ & Hempty & _).
  assert (Hb := proj1 Hempty Hvalid). clear Hempty.
  split; [|split].
  - apply (Hb ("initialInvestment",
               lt (PreciousMetal.initialInvestment params) 0)). cbn. tauto.
  - apply (Hb ("annualPriceIncrease",
               lt (PreciousMetal.annualPriceIncrease params) (of_Z (-1)))).
    cbn. tauto.
  - apply (Hb ("transactionFeePercent",
               gt (PreciousMetal.transactionFeePercent params) 1)). cbn. tauto.
Qed.

(** X10. A precious-metal record that the validator accepts never projects
    a negative value: no value of any year is below 0. *)
Theorem precious_metal_accepted_never_negative :
  forall (o : PowOracle) (params : PreciousMetal.PreciousMetalParams) (years t : nat),
    Validation.validatePreciousMetalParams params = [] ->
    (t <= years)%nat ->
    exists v : num,
      at_year (PreciousMetal.computePreciousMetalValues params years) t = Some v
      /\ lt v 0 = false.
Proof.
  intros o params years t Hvalid Ht.
  destruct (precious_metal_accepted_bounds _ Hvalid) as (Hinit & Hrate & Hfee).
  destruct t as [|k].
  - exists (PreciousMetal.initialInvestment params). split; [|exact Hinit].
    apply (@loop_values_first _ _ (fun vs => vs) _ (metal_pushes params)).
    reflexivity.
  - eexists. split; [apply metal_year; lia|].
    unfold metal_out. rewrite Math_pow_of_nat.
    apply mul_not_negative; [apply mul_not_negative|].
    + exact Hinit.
    + now apply pow_nat_not_negative, one_plus_not_negative.
    + now apply one_minus_not_negative.
Qed.

Lemma precious_metal_accepted_never_negative_witness :
  exists v : num,
    at_year (PreciousMetal.computePreciousMetalValues (o := no_fractional_pow)
               precious_metal_base 3) 2 = Some v
    /\ lt v 0 = false.
Proof.
  apply (@precious_metal_accepted_never_negative no_fractional_pow
           precious_metal_base 3 2); [reflexivity | lia].
Defined.

(* ================================================================== *)
(** ** Rental property: the remaining balance                         *)
(* ================================================================== *)

(** X11. When the down payment does not exceed the purchase price, the
    remaining mortgage balance is never negative, in any year and whatever
    the other fields are. *)
Theorem rental_balance_never_negative :
  forall (o : PowOracle) (params : Rental.RentalPropertyParams) (n : nat),
    gt (Rental.downPayment params) (Rental.purchasePrice params) = false ->
    lt (Rental.remainingMortgage (Rental.run params n)) 0 = false.
Proof.
  intros o params n Hdown. induction n as [|n IH].
  - cbn [Rental.run for_loop for_years Rental.initial_state
         Rental.remainingMortgage].
    now apply sub_not_negative.
  - rewrite rental_run_S, rental_body_remainingMortgage.
    destruct (Rental.pays_mortgage params (S n)); [|exact IH].
    apply Math_max_not_negative.
Qed.

Lemma rental_balance_never_negative_witness :
  lt (Rental.remainingMortgage
        (Rental.run (o := no_fractional_pow) (rental_plain (lit 12 100) (of_Z 1)) 3))
     0 = false.
Proof.
  apply (@rental_balance_never_negative no_fractional_pow
           (rental_plain (lit 12 100) (of_Z 1)) 3).
  reflexivity.
Defined.

(* ================================================================== *)
(** ** The chart series                                                *)
(* ================================================================== *)

Lemma le_trans_num (x y z : num) :
  le x y = true -> le y z = true -> le x z = true.
Proof.
  destruct x as [a| | |], y as [b| | |], z as [c| | |];
    try discriminate; try reflexivity.
  intros H1 H2. apply le_Fin in H1, H2. apply le_Fin.
  now apply Qcle_trans with b.
Qed.

Lemma le_refl_finite (x : num) : is_finite x = true -> le x x = true.
Proof.
  destruct x; try discriminate. intros _. apply le_Fin, Qcle_refl.
Qed.

(** The maximum of an accumulator that is finite or [-Infinity] and a
    finite number is finite and above both. *)
Lemma Math_max_upper (acc x : num) :
  (acc = NInf \/ is_finite acc = true) -> is_finite x = true ->
  is_finite (Math_max acc x) = true
  /\ le acc (Math_max acc x) = true
  /\ le x (Math_max acc x) = true.
Proof.
  intros Hacc Fx. destruct x as [b| | |]; try discriminate.
  destruct Hacc as [-> | Facc].
  - repeat split. apply le_Fin, Qcle_refl.
  - destruct acc as [a| | |]; try discriminate.
    unfold Math_max. cbn [lt].
    destruct (Qc_ltb a b) eqn:L.
    + repeat split.
      * apply le_Fin, Qclt_le_weak. now apply Qc_ltb_lt.
      * apply le_Fin, Qcle_refl.
    + repeat split.
      * apply le_Fin, Qcle_refl.
      * apply le_Fin. now apply Qc_ltb_ge.
Qed.

Lemma fold_Math_max_upper (args : list num) (acc : num) :
  (acc = NInf \/ is_finite acc = true) ->
  Forall (fun x => is_finite x = true) args ->
  (fold_left Math_max args acc = acc \/ is_finite (fold_left Math_max args acc) = true)
  /\ le acc (fold_left Math_max args acc) = true
  /\ (forall x, In x args -> le x (fold_left Math_max args acc) = true).
Proof.
  revert acc. induction args as [|y args IH]; intros acc Hacc Hargs.
  - cbn. split; [now left|]. split; [|intros x []].
    destruct Hacc as [-> | F]; [reflexivity | now apply le_refl_finite].
  - inversion Hargs as [|? ? Fy Hrest]; subst.
    destruct (@Math_max_upper acc y Hacc Fy) as (Fm & Hacc_le & Hy_le).
    destruct (IH (Math_max acc y) (or_intror Fm) Hrest) as (Hres & Hle & Hin).
    cbn [fold_left]. split; [|split].
    + right. destruct Hres as [-> | F]; [exact Fm | exact F].
    + now apply le_trans_num with (Math_max acc y).
    + intros x [<- | Hx].
      * now apply le_trans_num with (Math_max acc y).
      * now apply Hin.
Qed.

Lemma loop_years_of_nat (h : nat) : loop_years (of_nat h) = Some h.
Proof.
  unfold loop_years, of_nat, of_Z.
  rewrite this_Q2Qc_inject_Z, Qfloor_Z. now rewrite Nat2Z.id.
Qed.

(** A time horizon that passes the two checks of a validator is a positive
    whole number. *)
Lemma accepted_horizon (x : num) :
  le x 0 = false -> negb (Number_isInteger x) = false ->
  exists h : nat, x = of_nat (S h).
Proof.
  intros Hpos Hint. apply negb_false_iff in Hint.
  apply positive_integer_of_nat; [exact Hint|].
  apply not_below_zero; [|exact Hpos].
  now destruct x.
Qed.

Lemma valid_entry_horizon (inv : App.InvestmentEntry) :
  App.is_valid inv = true -> exists h : nat, App.timeHorizon inv = of_nat (S h).
Proof.
  destruct inv as [i p | i p | i p | i p]; cbn [App.is_valid App.timeHorizon];
    intros Hvalid; apply Nat.eqb_eq, length_zero_iff_nil in Hvalid.
  - destruct (@reports_of_fields _ _ (security_validator_fields p))
      as (_ & Hempty & _).
    assert (Hb := proj1 Hempty Hvalid).
    apply accepted_horizon.
    + apply (Hb ("timeHorizon", le (Security.timeHorizon p) 0)). cbn. tauto.
    + apply (Hb ("timeHorizon", negb (Number_isInteger (Security.timeHorizon p)))).
      cbn. tauto.
  - destruct (@reports_of_fields _ _ (rental_validator_fields p))
      as (_ & Hempty & _).
    assert (Hb := proj1 Hempty Hvalid).
    apply accepted_horizon.
    + apply (Hb ("timeHorizon", le (Rental.timeHorizon p) 0)). cbn. tauto.
    + apply (Hb ("timeHorizon", negb (Number_isInteger (Rental.timeHorizon p)))).
      cbn. tauto.
  - destruct (@reports_of_fields _ _ (precious_metal_validator_fields p))
      as (_ & Hempty & _).
    assert (Hb := proj1 Hempty Hvalid).
    apply accepted_horizon.
    + apply (Hb ("timeHorizon", le (PreciousMetal.timeHorizon p) 0)). cbn. tauto.
    + apply (Hb ("timeHorizon",
                 negb (Number_isInteger (PreciousMetal.timeHorizon p)))).
      cbn. tauto.
  - destruct (@reports_of_fields _ _ (fixed_income_validator_fields p))
      as (_ & Hempty & _).
    assert (Hb := proj1 Hempty Hvalid).
    apply accepted_horizon.
    + apply (Hb ("timeHorizon", le (FixedIncome.timeHorizon p) 0)). cbn. tauto.
    + apply (Hb ("timeHorizon",
                 negb (Number_isInteger (FixedIncome.timeHorizon p)))).
      cbn. tauto.
Qed.

(** The series of a valid investment exists and has one value per year of
    the investment's horizon, and the initial one. *)
Lemma valid_entry_series {o : PowOracle} (inv : App.InvestmentEntry) (h : nat) :
  App.timeHorizon inv = of_nat h ->
  exists s : App.ChartSeries,
    App.series_of inv = Some s /\ length (App.values s) = S h.
Proof.
  destruct inv as [i p | i p | i p | i p];
    cbn [App.timeHorizon App.series_of]; intros ->;
    rewrite loop_years_of_nat; eexists; (split; [reflexivity|]);
    cbn [App.values].
  - unfold Security.computeSecurityValues, Security.run.
    now rewrite (@loop_values_length _ _ _ _ (security_pushes p)).
  - unfold Rental.computeRentalValues, Rental.run.
    now rewrite (@loop_values_length _ _ _ _ (rental_pushes p)).
  - unfold PreciousMetal.computePreciousMetalValues.
    now rewrite (@loop_values_length _ _ (fun vs => vs) _ (metal_pushes p)).
  - unfold FixedIncome.computeFixedIncomeValues.
    now rewrite (@loop_values_length _ _ (fun vs => vs) _ (fixed_pushes p)).
Qed.

Lemma valid_entries_series {o : PowOracle} (valid : list App.InvestmentEntry) :
  Forall (fun inv => App.is_valid inv = true) valid ->
  exists series : list App.ChartSeries,
    App.map_all App.series_of valid = Some series
    /\ Forall2 (fun inv s =>
                  exists h : nat,
                    App.timeHorizon inv = of_nat (S h)
                    /\ length (App.values s) = S (S h)) valid series.
Proof.
  induction 1 as [|inv valid Hinv _ (series & Emap & Hall)].
  - exists []. split; [reflexivity | constructor].
  - destruct (@valid_entry_horizon inv Hinv) as [h Eh].
    destruct (@valid_entry_series _ inv _ Eh) as (s & Es & Hlen).
    exists (s :: series). cbn [App.map_all]. rewrite Es, Emap.
    split; [reflexivity|]. constructor; [now exists h | exact Hall].
Qed.

Lemma map_all_series {o : PowOracle} (entries : list App.InvestmentEntry) :
  forall series : list App.ChartSeries,
    App.map_all App.series_of entries = Some series ->
    Forall2 (fun inv s => App.series_of inv = Some s) entries series.
Proof.
  induction entries as [|inv entries IH]; intros series Emap.
  - injection Emap as <-. constructor.
  - cbn [App.map_all] in Emap.
    destruct (App.series_of inv) as [s|] eqn:Es; [|discriminate].
    destruct (App.map_all App.series_of entries) as [ss|]; [|discriminate].
    injection Emap as <-. constructor; [exact Es | now apply IH].
Qed.

(** X12. [chartData] always returns: it projects the investments their
    validators accept, in order and nothing else; every series has one value
    per year of its own horizon besides the initial one, at least two
    values, and the year range of the chart covers all of it. *)
Theorem chart_data_covers_every_series :
  forall (o : PowOracle) (investments : list App.InvestmentEntry),
    exists (series : list App.ChartSeries) (years : num),
      App.chartData investments = Some (series, years)
      /\ Forall2 (fun inv s => App.series_of inv = Some s)
                 (filter App.is_valid investments) series
      /\ Forall (fun s => exists h : nat,
                     length (App.values s) = S (S h)
                     /\ le (of_nat (S h)) years = true) series.
Proof.
  intros o investments. unfold App.chartData.
  set (valid := filter App.is_valid investments).
  assert (Hvalid : Forall (fun inv => App.is_valid inv = true) valid).
  { apply Forall_forall. intros inv Hin. now apply filter_In in Hin. }
  set (years := Math_max_args (map App.timeHorizon valid ++ [0])).
  assert (Hyears : forall inv, In inv valid -> le (App.timeHorizon inv) years = true).
  { intros inv Hin.
    assert (Hfin : Forall (fun x => is_finite x = true)
                          (map App.timeHorizon valid ++ [0])).
    { apply Forall_app. split; [|now constructor].
      apply Forall_map. revert Hvalid. apply Forall_impl.
      intros e He. destruct (@valid_entry_horizon e He) as [h ->]. reflexivity. }
    destruct (@fold_Math_max_upper (map App.timeHorizon valid ++ [0]) NInf
                (or_introl eq_refl) Hfin) as (_ & _ & Hin_le).
    apply Hin_le. apply in_or_app. left. now apply in_map. }
  destruct (@valid_entries_series _ valid Hvalid) as (series & Emap & Hall).
  exists series, years. cbv zeta. rewrite Emap.
  split; [reflexivity|]. clear Hvalid. split.
  - now apply map_all_series.
  - clear Emap. clearbody years valid.
    induction Hall as [|inv s valid series (h & Eh & Hlen) _ IH];
      constructor.
    + exists h. split; [exact Hlen|]. rewrite <- Eh. apply Hyears. now left.
    + apply IH. intros e He. apply Hyears. now right.
Qed.

(* ================================================================== *)
(** ** The list of investments                                         *)
(* ================================================================== *)

Lemma Number_toString_inj (a b : nat) :
  Number_toString a = Number_toString b -> a = b.
Proof.
  unfold Number_toString. intros E.
  assert (E' : Some (Nat.to_uint a) = Some (Nat.to_uint b)).
  { rewrite <- !NilEmpty.usu. now rewrite E. }
  injection E' as E'.
  rewrite <- (DecimalNat.Unsigned.of_to a), <- (DecimalNat.Unsigned.of_to b).
  now rewrite E'.
Qed.

Lemma append_inj (p a b : string) : (p ++ a = p ++ b)%string -> a = b.
Proof.
  induction p as [|c p IH]; cbn; intros E; [exact E|].
  injection E as E. now apply IH.
Qed.

Lemma numbered_inj (p : string) (a b : nat) :
  (p ++ Number_toString a = p ++ Number_toString b)%string -> a = b.
Proof. intros E. now apply Number_toString_inj, append_inj with p. Qed.

Lemma NoDup_map_filter {A B : Type} (f : A -> B) (keep : A -> bool) (l : list A) :
  NoDup (map f l) -> NoDup (map f (filter keep l)).
Proof.
  induction l as [|x l IH]; cbn; intros H; [constructor|].
  inversion H as [|? ? Hx Hl]; subst.
  destruct (keep x); [|now apply IH].
  cbn. constructor; [|now apply IH].
  intros Hin. apply Hx. apply in_map_iff in Hin as (y & Ey & Hy).
  apply in_map_iff. exists y. split; [exact Ey|]. now apply filter_In in Hy.
Qed.

Lemma NoDup_map_snoc {A B : Type} (f : A -> B) (l : list A) (x : A) :
  NoDup (map f l) -> (forall y, In y l -> f y <> f x) ->
  NoDup (map f (l ++ [x])).
Proof.
  intros Hl Hx. rewrite map_app. apply NoDup_app.
  - exact Hl.
  - cbn. constructor; [intros [] | constructor].
  - intros b Hb [<- | []]. apply in_map_iff in Hb as (y & Ey & Hy).
    now apply (Hx y).
Qed.

(** What [addInvestment] does to the list and to the counter of
    identifiers. *)
Lemma addInvestment_investments (type : App.AssetType) (st : App.state) :
  exists e : App.InvestmentEntry,
    App.investments (App.addInvestment type st) = App.investments st ++ [e]
    /\ App.id e = ("inv-" ++ Number_toString (App.nextId st))%string
    /\ App.nextId (App.addInvestment type st) = S (App.nextId st).
Proof. destruct type; eexists; repeat split. Qed.

Lemma ids_issued_add (type : App.AssetType) (st : App.state) :
  ids_issued st -> ids_issued (App.addInvestment type st).
Proof.
  intros (Hnodup & Hids). unfold ids_issued.
  destruct (addInvestment_investments type st) as (e & -> & Eid & ->).
  split.
  - apply NoDup_map_snoc; [exact Hnodup|].
    intros y Hy E. destruct (Hids y Hy) as (k & Hk & Ek).
    rewrite Ek, Eid in E. apply numbered_inj in E. lia.
  - intros inv Hin. apply in_app_or in Hin as [Hin | [<- | []]].
    + destruct (Hids inv Hin) as (k & Hk & Ek). exists k. split; [lia | exact Ek].
    + exists (App.nextId st). split; [lia | exact Eid].
Qed.

Lemma ids_issued_delete (id0 : string) (st : App.state) :
  ids_issued st -> ids_issued (App.deleteInvestment id0 st).
Proof.
  intros (Hnodup & Hids). split; cbn [App.deleteInvestment App.investments App.nextId].
  - now apply NoDup_map_filter.
  - intros inv Hin. apply filter_In in Hin as (Hin & _). now apply Hids.
Qed.

Lemma ids_issued_fold (events : list App.event) (st : App.state) :
  ids_issued st ->
  ids_issued (fold_left (fun st e => App.handle e st) events st).
Proof.
  revert st. induction events as [|e events IH]; intros st H; [exact H|].
  cbn [fold_left]. apply IH. destruct e as [type | id0]; cbn [App.handle].
  - now apply ids_issued_add.
  - now apply ids_issued_delete.
Qed.

Lemma ids_issued_after (events : list App.event) : ids_issued (App.after events).
Proof.
  apply ids_issued_fold. split; [constructor | intros inv []].
Qed.

(** Filtering out the identifier of one entry of a list without repeated
    identifiers removes that entry and nothing else. *)
Lemma filter_out_unique {A : Type} (f : A -> string) (l1 l2 : list A) (a : A) :
  NoDup (map f (l1 ++ a :: l2)) ->
  filter (fun x => negb (String.eqb (f x) (f a))) (l1 ++ a :: l2) = l1 ++ l2.
Proof.
  intros H. rewrite map_app in H. cbn [map] in H.
  apply NoDup_remove_2 in H.
  assert (Hkeep : forall l, (forall x, In x l -> f x <> f a) ->
                            filter (fun x => negb (String.eqb (f x) (f a))) l = l).
  { induction l as [|x l IH]; intros Hl; [reflexivity|].
    cbn [filter]. destruct (String.eqb_spec (f x) (f a)) as [E | _].
    - exfalso. apply (Hl x); [now left | exact E].
    - cbn [negb]. f_equal. apply IH. intros y Hy. apply Hl. now right. }
  rewrite filter_app. cbn [filter]. rewrite String.eqb_refl. cbn [negb].
  rewrite !Hkeep; [reflexivity | |].
  - intros x Hx E. apply H. apply in_or_app. right. rewrite <- E. now apply in_map.
  - intros x Hx E. apply H. apply in_or_app. left. rewrite <- E. now apply in_map.
Qed.

(** X13. After any sequence of additions and deletions no two listed
    investments share an identifier, and every identifier is [inv-k] for a
    [k] below the counter. *)
Theorem investment_ids_are_unique :
  forall events : list App.event,
    let st := App.after events in
    NoDup (map App.id (App.investments st))
    /\ Forall (fun inv =>
                 exists k : nat,
                   (1 <= k < App.nextId st)%nat
                   /\ App.id inv = ("inv-" ++ Number_toString k)%string)
              (App.investments st).
Proof.
  intros events st.
  assert (Hlow : forall (evs : list App.event) (s : App.state),
             (Forall (fun inv => exists k : nat,
                          (1 <= k < App.nextId s)%nat
                          /\ App.id inv = ("inv-" ++ Number_toString k)%string)
                     (App.investments s) /\ (1 <= App.nextId s)%nat) ->
             let s' := fold_left (fun st e => App.handle e st) evs s in
             Forall (fun inv => exists k : nat,
                         (1 <= k < App.nextId s')%nat
                         /\ App.id inv = ("inv-" ++ Number_toString k)%string)
                    (App.investments s')).
  { induction evs as [|e evs IH]; intros s (Hs & Hn); [exact Hs|].
    cbn [fold_left]. apply IH. destruct e as [type | id0]; cbn [App.handle].
    - destruct (addInvestment_investments type s) as (x & -> & Eid & ->).
      split; [|lia]. apply Forall_app. split.
      + revert Hs. apply Forall_impl. intros inv (k & Hk & Ek).
        exists k. split; [lia | exact Ek].
      + constructor; [|constructor]. exists (App.nextId s). split; [lia | exact Eid].
    - split; [|exact Hn]. cbn [App.deleteInvestment App.investments App.nextId].
      rewrite Forall_forall in *. intros inv Hin.
      apply filter_In in Hin as (Hin & _). now apply Hs. }
  split.
  - apply ids_issued_after.
  - apply Hlow. split; [constructor | cbn; lia].
Qed.

(** X14. In a state reached by additions and deletions, deleting an
    identifier that is listed removes exactly the one entry that carries it
    and keeps the others in their order. *)
Theorem delete_removes_exactly_one :
  forall (events : list App.event) (id0 : string),
    In id0 (map App.id (App.investments (App.after events))) ->
    exists (before after : list App.InvestmentEntry) (inv : App.InvestmentEntry),
      App.investments (App.after events) = before ++ inv :: after
      /\ App.id inv = id0
      /\ App.investments (App.deleteInvestment id0 (App.after events))
         = before ++ after
      /\ ~ In id0 (map App.id (before ++ after)).
Proof.
  intros events id0 Hin.
  destruct (ids_issued_after events) as (Hnodup & _).
  apply in_map_iff in Hin as (inv & Eid & Hin).
  apply in_split in Hin as (before & after & E).
  exists before, after, inv. rewrite E in *. subst id0.
  split; [reflexivity|]. split; [reflexivity|]. split.
  - cbn [App.deleteInvestment App.investments]. rewrite E.
    now apply filter_out_unique.
  - rewrite map_app in *. cbn [map] in Hnodup. now apply NoDup_remove_2 in Hnodup.
Qed.

Lemma delete_removes_exactly_one_witness :
  In "inv-2"%string
     (map App.id
        (App.investments
           (App.after [App.Add App.security; App.Add App.rental_property;
                       App.Delete "inv-1"%string; App.Add App.fixed_income])))
  /\ exists (before after : list App.InvestmentEntry) (inv : App.InvestmentEntry),
      App.investments
        (App.after [App.Add App.security; App.Add App.rental_property;
                    App.Delete "inv-1"%string; App.Add App.fixed_income])
      = before ++ inv :: after
      /\ App.id inv = "inv-2"%string
      /\ App.investments
           (App.deleteInvestment "inv-2"
              (App.after [App.Add App.security; App.Add App.rental_property;
                          App.Delete "inv-1"%string; App.Add App.fixed_income]))
         = before ++ after
      /\ ~ In "inv-2"%string (map App.id (before ++ after)).
Proof.
  assert (H : In "inv-2"%string
                 (map App.id
                    (App.investments
                       (App.after [App.Add App.security;
                                   App.Add App.rental_property;
                                   App.Delete "inv-1"%string;
                                   App.Add App.fixed_income])))).
  { left. reflexivity. }
  split; [exact H | exact (@delete_removes_exactly_one _ "inv-2"%string H)].
Defined.

Arguments Number_toString : simpl never.

Lemma named_by_count_add (type : App.AssetType) (st : App.state)
      (inv : App.InvestmentEntry) :
  named_by_count st inv -> named_by_count (App.addInvestment type st) inv.
Proof.
  intros (c & H). exists c.
  destruct type, inv; cbn in *; destruct H as (Hc & ->); split;
    try reflexivity; lia.
Qed.

Lemma names_issued_add (type : App.AssetType) (st : App.state) :
  names_issued st -> names_issued (App.addInvestment type st).
Proof.
  intros (Hnodup & Hnames). split.
  - destruct type; cbn [App.addInvestment App.generateId App.investments];
      (apply NoDup_map_snoc; [exact Hnodup|]);
      intros y Hy E; destruct (Hnames y Hy) as (c & Hc);
      destruct y; destruct Hc as (Hc & En); cbn in E, Hc;
      rewrite En in E; cbn in E; try discriminate E;
      inversion E as [E']; apply Number_toString_inj in E'; lia.
  - intros inv Hin.
    assert (Hcases : In inv (App.investments st)
                     \/ App.investments (App.addInvestment type st)
                        = App.investments st ++ [inv]).
    { destruct type; cbn in Hin |- *;
        apply in_app_or in Hin as [Hin | [<- | []]]; auto. }
    destruct Hcases as [Hold | Hnew].
    + now apply named_by_count_add, Hnames.
    + destruct type; cbn in Hnew; apply app_inv_head in Hnew;
        injection Hnew as <-; eexists; split; cbn; try reflexivity; lia.
Qed.

Lemma names_issued_delete (id0 : string) (st : App.state) :
  names_issued st -> names_issued (App.deleteInvestment id0 st).
Proof.
  intros (Hnodup & Hnames). split; cbn [App.deleteInvestment App.investments].
  - now apply NoDup_map_filter.
  - intros inv Hin. apply filter_In in Hin as (Hin & _).
    destruct (Hnames inv Hin) as (c & Hc). exists c. now destruct inv.
Qed.

Lemma names_issued_fold (events : list App.event) (st : App.state) :
  names_issued st ->
  names_issued (fold_left (fun st e => App.handle e st) events st).
Proof.
  revert st. induction events as [|e events IH]; intros st H; [exact H|].
  cbn [fold_left]. apply IH. destruct e as [type | id0]; cbn [App.handle].
  - now apply names_issued_add.
  - now apply names_issued_delete.
Qed.

(** X15. The names [addInvestment] gives never collide: after any sequence
    of additions and deletions the listed investments have pairwise distinct
    names, because the counters of the types are not lowered by a
    deletion. *)
Theorem default_names_are_unique :
  forall events : list App.event,
    NoDup (map entry_name (App.investments (App.after events))).
Proof.
  intros events.
  apply (@names_issued_fold events App.initial_state).
  split; [constructor | intros inv []].
Qed.

(* ================================================================== *)
(** ** The plotted values                                              *)
(* ================================================================== *)

(** [Math.max(lo, Math.min(x, hi))] is [NaN] or lies between the bounds. *)
Lemma clamp_range (lo hi : Qc) (x : num) :
  (lo <= hi)%Qc ->
  Math_max (Fin lo) (Math_min x (Fin hi)) = NaN
  \/ (le (Fin lo) (Math_max (Fin lo) (Math_min x (Fin hi))) = true
      /\ le (Math_max (Fin lo) (Math_min x (Fin hi))) (Fin hi) = true).
Proof.
  intros Hle. destruct x as [q| | |]; cbn [Math_min Math_max lt].
  - right. destruct (Qc_ltb hi q) eqn:E1; cbn [Math_max lt].
    + destruct (Qc_ltb lo hi) eqn:E2; split; apply le_Fin;
        try apply Qcle_refl; exact Hle.
    + apply Qc_ltb_ge in E1.
      destruct (Qc_ltb lo q) eqn:E2; split; apply le_Fin;
        try apply Qcle_refl; try assumption.
      apply Qclt_le_weak. now apply Qc_ltb_lt.
  - right. destruct (Qc_ltb lo hi) eqn:E2; split; apply le_Fin;
      try apply Qcle_refl; exact Hle.
  - right. split; apply le_Fin; [apply Qcle_refl | exact Hle].
  - now left.
Qed.

Lemma rate_bounds_ordered : (Q2Qc (inject_Z (-100)) <= Q2Qc (inject_Z 500))%Qc.
Proof. apply Qc_leb_le. reflexivity. Qed.

Lemma clamped_rate_range {o : PowOracle} (value base : num) (y : nat) :
  Chart.clamped_rate value base y = NaN
  \/ (le (of_Z (-100)) (Chart.clamped_rate value base y) = true
      /\ le (Chart.clamped_rate value base y) Chart.MAX_ANNUALIZED_RATE = true).
Proof.
  unfold Chart.clamped_rate. cbv zeta. apply clamp_range, rate_bounds_ordered.
Qed.

(** X16. In the annualized mode a plotted rate is never outside the band:
    with a base that is not positive it is the maximum or its negative; with
    a positive base it is [NaN] or lies between -100 and the maximum.  This
    holds for the line of a series and for the combined line. *)
Theorem annualized_rates_stay_in_band :
  forall (o : PowOracle) (inflation : bool) (rate : num)
         (series : list App.ChartSeries) (s : App.ChartSeries) (y : nat),
    match Chart.series_point
            {| Chart.isAnnualized := true;
               Chart.inflationEnabled := inflation;
               Chart.inflationRate := rate |} s y with
    | None => (List.length (App.values s) <= y)%nat
    | Some r =>
        if le (App.initialInvestment s) 0
        then r = Chart.MAX_ANNUALIZED_RATE \/ r = neg Chart.MAX_ANNUALIZED_RATE
        else r = NaN
             \/ (le (of_Z (-100)) r = true
                 /\ le r Chart.MAX_ANNUALIZED_RATE = true)
    end
    /\ (let r := Chart.combined_point
                   {| Chart.isAnnualized := true;
                      Chart.inflationEnabled := inflation;
                      Chart.inflationRate := rate |} series y in
        if le (Chart.combinedInitialInvestment series) 0
        then r = Chart.MAX_ANNUALIZED_RATE \/ r = neg Chart.MAX_ANNUALIZED_RATE
        else r = NaN
             \/ (le (of_Z (-100)) r = true
                 /\ le r Chart.MAX_ANNUALIZED_RATE = true)).
Proof.
  intros o inflation rate series s y. split.
  - unfold Chart.series_point. cbn [Chart.isAnnualized].
    destruct (Nat.ltb_spec y (List.length (App.values s))) as [_ | Hy];
      [|exact Hy].
    destruct (le (App.initialInvestment s) 0).
    + cbv zeta. match goal with |- context [if ?b then _ else _] => destruct b end;
        [now left | now right].
    + cbv zeta. apply clamped_rate_range.
  - cbv zeta. unfold Chart.combined_point. cbn [Chart.isAnnualized]. cbv zeta.
    destruct (le (Chart.combinedInitialInvestment series) 0).
    + match goal with |- context [if ?b then _ else _] => destruct b end;
        [now left | now right].
    + apply clamped_rate_range.
Qed.

Lemma clamp_of_floor : Math_max (of_Z (-100)) (Math_min (of_Z (-100)) Chart.MAX_ANNUALIZED_RATE)
                       = of_Z (-100).
Proof. reflexivity. Qed.



Lemma Qc_pos_nonzero (x : Qc) : (0 < x)%Qc -> x <> 0%Qc.
Proof. intros H E. apply (Qclt_not_eq _ _ H). now rewrite E. Qed.

Lemma Qcpower_positive (b : Qc) (n : nat) : (0 < b)%Qc -> (0 < b ^ n)%Qc.
Proof.
  intros Hb. induction n as [|n IH]; [reflexivity|].
  cbn [Qcpower]. rewrite <- (Qcmult_0_l (b ^ n)).
  now apply Qcmult_lt_compat_r.
Qed.

(** The value of [deflate] at a loop counter, for an inflation rate above
    -1. *)
Lemma deflate_value {o : PowOracle} (v r : Qc) (n : nat) :
  (0 < 1 + r)%Qc ->
  Chart.deflate (Fin v) (of_nat n) (Fin r) = Fin (v / (1 + r) ^ n)%Qc.
Proof.
  intros Hr. unfold Chart.deflate. destruct n as [|k].
  - change (strict_eq (of_nat 0) 0) with true. cbv iota.
    f_equal. cbn [Qcpower]. field. discriminate.
  - unfold of_nat at 1. unfold of_Z. cbn [strict_eq].
    change (Fin (Q2Qc (inject_Z (Z.of_nat (S k))))) with (of_nat (S k)).
    rewrite of_nat_nonzero, Math_pow_of_nat.
    change (1 + Fin r) with (Fin (1 + r)%Qc). rewrite pow_nat_Fin.
    cbn [div].
    destruct (Qc_eqb ((1 + r) ^ S k) 0) eqn:E; [|reflexivity].
    apply Qc_eqb_eq in E. exfalso.
    now apply (@Qc_pos_nonzero ((1 + r) ^ S k)%Qc); [apply Qcpower_positive|].
Qed.

(** X19. With an inflation rate of zero, deflating leaves a finite value as
    it is, at every year. *)
Theorem deflate_at_zero_inflation :
  forall (o : PowOracle) (v : Qc) (n : nat),
    Chart.deflate (Fin v) (of_nat n) 0 = Fin v.
Proof.
  intros o v n. change 0 with (Fin 0%Qc) at 1.
  rewrite deflate_value by reflexivity.
  f_equal. replace (1 + 0)%Qc with 1%Qc by ring.
  rewrite Qcpower_1. field. discriminate.
Qed.

Lemma Qcpower_ge_1 (b : Qc) (n : nat) : (1 <= b)%Qc -> (1 <= b ^ n)%Qc.
Proof.
  intros Hb. induction n as [|n IH]; [apply Qcle_refl|].
  cbn [Qcpower]. remember (b ^ n)%Qc as p eqn:Ep. clear Ep.
  qc_order. nra.
Qed.

(** X20. At an inflation rate that is not negative, deflating a value that
    is not negative never raises it and never makes it negative, at any
    year. *)
Theorem deflate_never_raises :
  forall (o : PowOracle) (v r : Qc) (n : nat),
    (0 <= v)%Qc -> (0 <= r)%Qc ->
    le 0 (Chart.deflate (Fin v) (of_nat n) (Fin r)) = true
    /\ le (Chart.deflate (Fin v) (of_nat n) (Fin r)) (Fin v) = true.
Proof.
  intros o v r n Hv Hr.
  assert (Hb : (0 < 1 + r)%Qc) by (clear - Hr; qc_order; lra).
  assert (Hb1 : (1 <= 1 + r)%Qc) by (clear - Hr; qc_order; lra).
  rewrite deflate_value by exact Hb.
  assert (Hp := Qcpower_ge_1 n Hb1).
  assert (Hp' : ((1 + r) ^ n)%Qc <> 0%Qc)
    by (apply Qc_pos_nonzero, Qcpower_positive, Hb).
  set (w := (v / (1 + r) ^ n)%Qc).
  assert (Ev : v = (w * (1 + r) ^ n)%Qc) by (unfold w; field; exact Hp').
  clearbody w. remember ((1 + r) ^ n)%Qc as p eqn:Ep. clear Ep Hp'.
  rewrite !le_Fin. subst v. clear - Hv Hp. split; qc_order; nra.
Qed.

Lemma deflate_never_raises_witness :
  (0 <= Q2Qc (inject_Z 1000))%Qc /\ (0 <= Q2Qc (1 # 40))%Qc
  /\ le 0 (Chart.deflate (o := no_fractional_pow)
             (Fin (Q2Qc (inject_Z 1000))) (of_nat 3) (Fin (Q2Qc (1 # 40)))) = true
  /\ le (Chart.deflate (o := no_fractional_pow)
           (Fin (Q2Qc (inject_Z 1000))) (of_nat 3) (Fin (Q2Qc (1 # 40))))
        (Fin (Q2Qc (inject_Z 1000))) = true.
Proof.
  assert (Hv : (0 <= Q2Qc (inject_Z 1000))%Qc) by (apply Qc_leb_le; reflexivity).
  assert (Hr : (0 <= Q2Qc (1 # 40))%Qc) by (apply Qc_leb_le; reflexivity).
  split; [exact Hv|]. split; [exact Hr|].
  exact (@deflate_never_raises no_fractional_pow
           (Q2Qc (inject_Z 1000)) (Q2Qc (1 # 40)) 3%nat Hv Hr).
Defined.

(** X21. The combined line holds every series at its last value: once the
    year is at or past the last year of every series, the combined value no
    longer changes. *)
Theorem combined_value_holds_after_last_year :
  forall (series : list App.ChartSeries) (y y' : nat),
    Forall (fun s => (List.length (App.values s) <= S y)%nat) series ->
    (y <= y')%nat ->
    Chart.getCombinedValueAtYear series y'
    = Chart.getCombinedValueAtYear series y.
Proof.
  intros series y y' Hall Hy. unfold Chart.getCombinedValueAtYear.
  generalize 0. induction Hall as [|s series Hs _ IH]; intros total;
    [reflexivity|].
  cbn [fold_left]. rewrite IH. f_equal.
  destruct (Nat.ltb_spec y (List.length (App.values s))) as [Hin | Hout].
  - assert (El : List.length (App.values s) = S y) by lia.
    destruct (Nat.ltb_spec y' (List.length (App.values s))) as [Hin' | Hout'].
    + now replace y' with y by lia.
    + destruct (Nat.ltb_spec 0 (List.length (App.values s))); [|lia].
      now replace (List.length (App.values s) - 1)%nat with y by lia.
  - destruct (Nat.ltb_spec y' (List.length (App.values s))); [lia | reflexivity].
Qed.

Lemma combined_value_holds_after_last_year_witness :
  Forall (fun s => (List.length (App.values s) <= 3)%nat)
         [ {| App.name := "a"; App.values := [of_Z 1; of_Z 2; of_Z 3];
              App.initialInvestment := of_Z 1 |};
           {| App.name := "b"; App.values := [of_Z 5];
              App.initialInvestment := of_Z 5 |} ]
  /\ (2 <= 7)%nat
  /\ Chart.getCombinedValueAtYear
       [ {| App.name := "a"; App.values := [of_Z 1; of_Z 2; of_Z 3];
            App.initialInvestment := of_Z 1 |};
         {| App.name := "b"; App.values := [of_Z 5];
            App.initialInvestment := of_Z 5 |} ] 7
     = Chart.getCombinedValueAtYear
         [ {| App.name := "a"; App.values := [of_Z 1; of_Z 2; of_Z 3];
              App.initialInvestment := of_Z 1 |};
           {| App.name := "b"; App.values := [of_Z 5];
              App.initialInvestment := of_Z 5 |} ] 2.
Proof.
  assert (H : Forall (fun s => (List.length (App.values s) <= 3)%nat)
         [ {| App.name := "a"; App.values := [of_Z 1; of_Z 2; of_Z 3];
              App.initialInvestment := of_Z 1 |};
           {| App.name := "b"; App.values := [of_Z 5];
              App.initialInvestment := of_Z 5 |} ]).
  { repeat constructor. }
  assert (L : (2 <= 7)%nat) by lia.
  split; [exact H|]. split; [exact L|].
  exact (@combined_value_holds_after_last_year _ 2%nat 7%nat H L).
Defined.

(* ================================================================== *)
(** ** The hidden series                                               *)
(* ================================================================== *)

Lemma Set_has_delete (s : list string) (n x : string) :
  Set_has (Set_delete s n) x = Set_has s x && negb (String.eqb x n).
Proof.
  unfold Set_has, Set_delete. induction s as [|y s IH]; [reflexivity|].
  cbn [filter existsb].
  destruct (String.eqb_spec y n) as [-> | Hyn]; cbn [negb].
  - rewrite IH. destruct (String.eqb x n); [|reflexivity].
    cbn [negb orb]. now rewrite andb_false_r.
  - cbn [existsb]. rewrite IH.
    destruct (String.eqb_spec x y) as [-> | Hxy]; [|reflexivity].
    cbn [orb]. destruct (String.eqb_spec y n); [contradiction | reflexivity].
Qed.

Lemma Set_has_add (s : list string) (n x : string) :
  Set_has (Set_add s n) x = Set_has s x || String.eqb x n.
Proof.
  unfold Set_add. destruct (Set_has s n) eqn:E.
  - destruct (String.eqb_spec x n) as [-> | _].
    + rewrite E. reflexivity.
    + now rewrite orb_false_r.
  - unfold Set_has. rewrite existsb_app. cbn [existsb]. now rewrite orb_false_r.
Qed.

(** X22. Toggling a series flips whether it is hidden and leaves every
    other name as it was; toggling it twice restores what is hidden. *)
Theorem toggle_series_flips_one_name :
  forall (hidden : list string) (name x : string),
    Set_has (toggleSeries name hidden) name = negb (Set_has hidden name)
    /\ Set_has (toggleSeries name hidden) x
       = (if String.eqb x name then negb (Set_has hidden x) else Set_has hidden x)
    /\ Set_has (toggleSeries name (toggleSeries name hidden)) x = Set_has hidden x.
Proof.
  assert (Hone : forall hidden name x,
             Set_has (toggleSeries name hidden) x
             = (if String.eqb x name then negb (Set_has hidden x)
                else Set_has hidden x)).
  { intros hidden name x. unfold toggleSeries. cbv zeta.
    destruct (Set_has hidden name) eqn:E.
    - rewrite Set_has_delete.
      destruct (String.eqb_spec x name) as [-> | _]; cbn [negb].
      + now rewrite E.
      + now rewrite andb_true_r.
    - rewrite Set_has_add.
      destruct (String.eqb_spec x name) as [-> | _].
      + now rewrite E.
      + now rewrite orb_false_r. }
  intros hidden name x. split; [|split].
  - rewrite Hone. now rewrite String.eqb_refl.
  - apply Hone.
  - rewrite !Hone. destruct (String.eqb x name); [|reflexivity].
    now rewrite negb_involutive.
Qed.
